(** * Inventory tracker (app.py): a shallow embedding and its properties

    The program is a menu of ten operations over a two-table SQLite store.
    The embedding has five layers, each following the source:

    - [Py]: the Python built-ins the operations call ([str.strip],
      [str.lower], [str.startswith], [int], [str], slicing and format
      padding), on ASCII text;
    - [Sqlite]: the schema of [create_tables] and every SQL statement the
      program executes, one function per statement;
    - [Csv]: [csv.writer] in its default (excel) dialect, and the matching
      [csv.reader], which serves to state the round trip of the export;
    - [App]: the operations themselves, in a state-and-exception monad over
      a [World] made of the console, the clock, the database file, the open
      connection and the export file;
    - [Main]: [create_tables] and the menu loop of [main].

    The two [while True] loops, of [prompt_int] and of [main], read at
    least one line per turn; they are written by recursion on a bound on
    their turns, and the lines left to read are such a bound.  [Spec] and
    [Frame] hold the vocabulary of the statements, [Demo] the stores and
    consoles of the examples.

    Integers are [Z].  Python's [int] is unbounded, SQLite's INTEGER is a
    64-bit signed integer; the boundary between the two (binding a Python
    [int] as a statement parameter, and SQLite's own arithmetic in [SUM]) is
    written out where the program crosses it.

    Rows with equal sort keys come out of an [ORDER BY] in the order in
    which they reached the sort, as SQLite's sorter leaves them: the order
    of the scan, and for the groups of the summary the descending order of
    the category.  Texts reach [LIKE] as C strings, cut at a NUL.

    What the embedding leaves out: text beyond ASCII (where Python's and
    SQLite's notions of case and of whitespace part ways); the calendar
    behind [datetime.utcnow().isoformat()], which is an oracle of the world;
    the rowid SQLite picks once the largest one in use is 2^63 - 1; and
    texts of a gigabyte or more, which SQLite refuses to bind. *)

From Stdlib Require Import ZArith List String Ascii Bool Lia.
From Stdlib Require Import Sorted Permutation.
From Stdlib Require Import DecimalString DecimalZ DecimalFacts.
Import ListNotations.

Local Open Scope string_scope.
Local Open Scope Z_scope.

(** ** Python built-ins on ASCII text *)

Module Py.

(** [str.isspace] on one ASCII character: TAB, LF, VT, FF, CR, the four
    separators 0x1c-0x1f and the space. *)
Definition isspace (c : ascii) : bool :=
  let n := nat_of_ascii c in
  ((9 <=? n) && (n <=? 13) || (28 <=? n) && (n <=? 32))%nat.

Fixpoint lstrip (s : string) : string :=
  match s with
  | EmptyString => EmptyString
  | String c r => if isspace c then lstrip r else s
  end.

Fixpoint rstrip (s : string) : string :=
  match s with
  | EmptyString => EmptyString
  | String c r =>
      match rstrip r with
      | EmptyString => if isspace c then EmptyString else String c EmptyString
      | r' => String c r'
      end
  end.

(** [s.strip()] *)
Definition strip (s : string) : string := rstrip (lstrip s).

Definition lower_char (c : ascii) : ascii :=
  let n := nat_of_ascii c in
  if ((65 <=? n) && (n <=? 90))%nat then ascii_of_nat (n + 32) else c.

(** [s.lower()] *)
Fixpoint lower (s : string) : string :=
  match s with
  | EmptyString => EmptyString
  | String c r => String (lower_char c) (lower r)
  end.

(** [s.startswith(p)] *)
Definition startswith (s p : string) : bool := String.prefix p s.

(** Truth value of a string: [bool(s)], as in [if not s] and [s or d]. *)
Definition truthy (s : string) : bool :=
  match s with EmptyString => false | _ => true end.

(** [s or d] *)
Definition or_else (s d : string) : string := if truthy s then s else d.

(** [s or None] *)
Definition or_None (s : string) : option string :=
  if truthy s then Some s else None.

(** [s[:n]] *)
Definition slice_to (n : nat) (s : string) : string := String.substring 0 n s.

Fixpoint spaces (n : nat) : string :=
  match n with O => EmptyString | S k => String " " (spaces k) end.

(** [f"{s:w}"] for a string: left-aligned, padded with spaces to width [w]. *)
Definition ljust (w : nat) (s : string) : string :=
  s ++ spaces (w - String.length s).

(** [f"{n:w}"] for an integer: right-aligned. *)
Definition rjust (w : nat) (s : string) : string :=
  spaces (w - String.length s) ++ s.

(** [str(n)] for an integer: decimal digits, with a leading minus sign. *)
Definition str (n : Z) : string := NilEmpty.string_of_int (Z.to_int n).

Definition digit_of (c : ascii) : option Z :=
  let n := nat_of_ascii c in
  if ((48 <=? n) && (n <=? 57))%nat then Some (Z.of_nat (n - 48)) else None.

Definition is_digit (c : ascii) : bool :=
  match digit_of c with Some _ => true | None => false end.

(** The digits of an integer literal after its first digit: digits, each
    optionally preceded by a single underscore. *)
Fixpoint int_digits (acc : Z) (s : string) : option Z :=
  match s with
  | EmptyString => Some acc
  | String c r =>
      if Ascii.eqb c "_" then
        match r with
        | EmptyString => None
        | String d r' =>
            match digit_of d with
            | Some v => int_digits (10 * acc + v) r'
            | None => None
            end
        end
      else
        match digit_of c with
        | Some v => int_digits (10 * acc + v) r
        | None => None
        end
  end.

Definition int_unsigned (s : string) : option Z :=
  match s with
  | EmptyString => None
  | String d r =>
      match digit_of d with
      | Some v => int_digits v r
      | None => None
      end
  end.

Fixpoint count_digits (s : string) : nat :=
  match s with
  | EmptyString => O
  | String c r => ((if is_digit c then 1 else 0) + count_digits r)%nat
  end.

(** CPython's default limit on the number of digits [int] converts. *)
Definition int_max_str_digits : nat := 4300.

(** The whitespace [int] skips around the number in an ASCII string: C's
    [isspace], that is TAB, LF, VT, FF, CR and the space.  The separators
    0x1c-0x1f, which [str.strip] removes, are not among them. *)
Definition int_isspace (c : ascii) : bool :=
  let n := nat_of_ascii c in
  ((9 <=? n) && (n <=? 13) || (n =? 32))%nat.

Fixpoint int_lstrip (s : string) : string :=
  match s with
  | EmptyString => EmptyString
  | String c r => if int_isspace c then int_lstrip r else s
  end.

Fixpoint int_rstrip (s : string) : string :=
  match s with
  | EmptyString => EmptyString
  | String c r =>
      match int_rstrip r with
      | EmptyString => if int_isspace c then EmptyString else String c EmptyString
      | r' => String c r'
      end
  end.

(** [int(s)] in base ten: the whitespace around the number is skipped,
    then come an optional sign and the digits.  [None] stands for
    [ValueError]. *)
Definition int (s : string) : option Z :=
  let t := int_rstrip (int_lstrip s) in
  if (int_max_str_digits <? count_digits t)%nat then None
  else
    match t with
    | String "+" r => int_unsigned r
    | String "-" r => option_map Z.opp (int_unsigned r)
    | _ => int_unsigned t
    end.

(** The line terminator [print] adds. *)
Definition nl : string := String (ascii_of_nat 10) EmptyString.

End Py.

(** Exceptions the operations can end with.  [ValueError] from [int] never
    escapes [prompt_int], so it is not listed. *)
Inductive exn : Type :=
| EOFError          (* input() at end of input *)
| OverflowError     (* a Python int that does not fit SQLite's INTEGER *)
| IntegrityError    (* a NOT NULL, UNIQUE or CHECK constraint failed *)
| OperationalError. (* integer overflow inside SUM, too long a LIKE pattern *)

(** ** The store: schema and statements *)

Module Sqlite.

(** Table [inventory] of [create_tables]. *)
Module inventory.
Record row : Type := mk {
  id : Z;                (* INTEGER PRIMARY KEY *)
  item : string;         (* TEXT UNIQUE NOT NULL *)
  category : string;     (* TEXT NOT NULL DEFAULT 'General' *)
  qty : Z;               (* INTEGER NOT NULL CHECK (qty >= 0) *)
  reorder_level : Z      (* INTEGER NOT NULL DEFAULT 5 CHECK (reorder_level >= 0) *)
}.
End inventory.

(** Table [orders] of [create_tables].  The foreign key on [item_id] is
    declared but, as the program never turns [PRAGMA foreign_keys] on,
    SQLite does not enforce it. *)
Module orders.
Record row : Type := mk {
  id : Z;                (* INTEGER PRIMARY KEY *)
  item_id : Z;           (* INTEGER NOT NULL *)
  qty : Z;               (* INTEGER NOT NULL CHECK (qty > 0) *)
  note : option string;  (* TEXT, nullable *)
  ordered_at : string    (* TEXT NOT NULL *)
}.
End orders.

(** A table is the list of its rows in rowid order, the order of a scan. *)
Record database : Type := mkdb {
  tbl_inventory : list inventory.row;
  tbl_orders : list orders.row
}.

Definition with_inventory (t : list inventory.row) (d : database) : database :=
  mkdb t (tbl_orders d).
Definition with_orders (t : list orders.row) (d : database) : database :=
  mkdb (tbl_inventory d) t.

(** The database right after [create_tables] on a fresh file. *)
Definition empty : database := mkdb [] [].

(** The range of SQLite's INTEGER; binding a Python [int] outside it raises
    [OverflowError] before the statement runs. *)
Definition fits_int64 (z : Z) : bool := (- 2 ^ 63 <=? z) && (z <? 2 ^ 63).

Definition all_fit (l : list Z) : bool := forallb fits_int64 l.

(** The rowid of a row inserted without one: one more than the largest
    rowid in use, 1 in an empty table. *)
Definition next_rowid (ids : list Z) : Z := 1 + fold_right Z.max 0 ids.

(** [ORDER BY]: a sort by the key order [le]; rows with equal keys keep
    their scan order. *)
Fixpoint insert_by {A : Type} (le : A -> A -> bool) (x : A) (l : list A) : list A :=
  match l with
  | [] => [x]
  | y :: r => if le x y then x :: l else y :: insert_by le x r
  end.

Definition order_by {A : Type} (le : A -> A -> bool) (l : list A) : list A :=
  fold_right (insert_by le) [] l.

(** A text as SQLite's pattern matching reads it, as a C string: up to its
    first NUL. *)
Fixpoint c_text (s : string) : string :=
  match s with
  | EmptyString => EmptyString
  | String c r => if Ascii.eqb c Ascii.zero then EmptyString else String c (c_text r)
  end.

(** The comparison behind [LIKE]: [%] matches any run of characters, [_]
    any one character, every other character matches itself up to ASCII
    case.  There is no escape character. *)
Fixpoint pattern_compare (p : string) : string -> bool :=
  match p with
  | EmptyString => fun s => match s with EmptyString => true | _ => false end
  | String c p' =>
      if Ascii.eqb c "%" then
        fix any (s : string) : bool :=
          pattern_compare p' s
          || match s with EmptyString => false | String _ s' => any s' end
      else if Ascii.eqb c "_" then
        fun s => match s with
                 | EmptyString => false
                 | String _ s' => pattern_compare p' s'
                 end
      else
        fun s =>
          match s with
          | EmptyString => false
          | String d s' =>
              Ascii.eqb (Py.lower_char c) (Py.lower_char d) && pattern_compare p' s'
          end
  end.

(** The longest pattern [LIKE] takes, in bytes. *)
Definition like_pattern_max : Z := 50000.

(** [x LIKE p]: a pattern of more than [like_pattern_max] bytes is an
    error ("LIKE or GLOB pattern too complex"); otherwise pattern and text
    are compared as C strings. *)
Definition like (p x : string) : exn + bool :=
  if like_pattern_max <? Z.of_nat (String.length p) then inl OperationalError
  else inr (pattern_compare (c_text p) (c_text x)).

(** [a OR b] in a [WHERE] clause: [b] is evaluated where [a] is false. *)
Definition OR (a b : exn + bool) : exn + bool :=
  match a with
  | inl e => inl e
  | inr true => inr true
  | inr false => b
  end.

(** The rows of a scan that satisfy a [WHERE] condition, which is
    evaluated row by row; the first error ends the statement. *)
Fixpoint scan_where (cond : inventory.row -> exn + bool) (t : list inventory.row)
    : exn + list inventory.row :=
  match t with
  | [] => inr []
  | r :: t' =>
      match cond r with
      | inl e => inl e
      | inr b =>
          match scan_where cond t' with
          | inl e => inl e
          | inr u => inr (if b then r :: u else u)
          end
      end
  end.

(** The SQL function [lower]: ASCII letters only. *)
Definition lower : string -> string := Py.lower.

(** [[
    INSERT INTO inventory (item, category, qty, reorder_level) VALUES (?, ?, ?, ?)
    ON CONFLICT(item) DO UPDATE SET category=excluded.category,
      qty=excluded.qty, reorder_level=excluded.reorder_level
    ]] *)
Definition upsert_item (item category : string) (qty reorder_level : Z)
    (d : database) : exn + database :=
  if negb (all_fit [qty; reorder_level]) then inl OverflowError
  else if negb ((0 <=? qty) && (0 <=? reorder_level)) then inl IntegrityError
  else
    let t := tbl_inventory d in
    if existsb (fun r => inventory.item r =? item)%string t then
      inr (with_inventory
             (map (fun r =>
                     if (inventory.item r =? item)%string
                     then inventory.mk (inventory.id r) item category qty reorder_level
                     else r) t) d)
    else
      inr (with_inventory
             (t ++ [inventory.mk (next_rowid (map inventory.id t))
                      item category qty reorder_level]) d).

(** [SELECT item, category, qty, reorder_level FROM inventory ORDER BY item] *)
Definition select_inventory (d : database) : list (string * string * Z * Z) :=
  map (fun r => (inventory.item r, inventory.category r,
                 inventory.qty r, inventory.reorder_level r))
      (order_by (fun a b => String.leb (inventory.item a) (inventory.item b))
                (tbl_inventory d)).

(** [[
    SELECT item, category, qty, reorder_level FROM inventory
    WHERE lower(item) LIKE ? OR lower(category) LIKE ? ORDER BY item
    ]] *)
Definition select_matching (p1 p2 : string) (d : database)
    : exn + list (string * string * Z * Z) :=
  match scan_where (fun r => OR (like p1 (lower (inventory.item r)))
                                (like p2 (lower (inventory.category r))))
                   (tbl_inventory d) with
  | inl e => inl e
  | inr rows =>
      inr (map (fun r => (inventory.item r, inventory.category r,
                          inventory.qty r, inventory.reorder_level r))
               (order_by (fun a b => String.leb (inventory.item a) (inventory.item b))
                         rows))
  end.

(** [SELECT id, qty FROM inventory WHERE item = ?], first row. *)
Definition select_id_qty (item : string) (d : database) : option (Z * Z) :=
  match find (fun r => inventory.item r =? item)%string (tbl_inventory d) with
  | Some r => Some (inventory.id r, inventory.qty r)
  | None => None
  end.

(** The rows of [inventory] with [qty] replaced by [f qty] where the id is
    [id]; [None] when a new value breaks [CHECK (qty >= 0)]. *)
Fixpoint set_qty (f : Z -> Z) (id : Z) (t : list inventory.row)
    : option (list inventory.row) :=
  match t with
  | [] => Some []
  | r :: t' =>
      if inventory.id r =? id then
        let q := f (inventory.qty r) in
        if q <? 0 then None
        else
          match set_qty f id t' with
          | Some u => Some (inventory.mk (inventory.id r) (inventory.item r)
                              (inventory.category r) q (inventory.reorder_level r) :: u)
          | None => None
          end
      else
        match set_qty f id t' with
        | Some u => Some (r :: u)
        | None => None
        end
  end.

(** [UPDATE inventory SET qty = ? WHERE id = ?] *)
Definition update_qty (new_qty id : Z) (d : database) : exn + database :=
  if negb (all_fit [new_qty; id]) then inl OverflowError
  else
    match set_qty (fun _ => new_qty) id (tbl_inventory d) with
    | Some t => inr (with_inventory t d)
    | None => inl IntegrityError
    end.

(** [UPDATE inventory SET qty = qty - ? WHERE id = ?].  The program only
    runs it with [1 <= q <= qty], where the difference is again a 64-bit
    integer. *)
Definition update_qty_minus (q id : Z) (d : database) : exn + database :=
  if negb (all_fit [q; id]) then inl OverflowError
  else
    match set_qty (fun old => old - q) id (tbl_inventory d) with
    | Some t => inr (with_inventory t d)
    | None => inl IntegrityError
    end.

(** [INSERT INTO orders (item_id, qty, note, ordered_at) VALUES (?, ?, ?, ?)] *)
Definition insert_order (item_id qty : Z) (note : option string)
    (ordered_at : string) (d : database) : exn + database :=
  if negb (all_fit [item_id; qty]) then inl OverflowError
  else if negb (0 <? qty) then inl IntegrityError
  else
    let t := tbl_orders d in
    inr (with_orders
           (t ++ [orders.mk (next_rowid (map orders.id t))
                    item_id qty note ordered_at]) d).

(** [[
    SELECT o.id, i.item, o.qty, o.note, o.ordered_at
    FROM orders o JOIN inventory i ON o.item_id = i.id
    ORDER BY o.ordered_at DESC
    ]] *)
Definition select_orders (d : database)
    : list (Z * string * Z * option string * string) :=
  map (fun oi : orders.row * inventory.row =>
         let (o, i) := oi in
         (orders.id o, inventory.item i, orders.qty o, orders.note o,
          orders.ordered_at o))
      (order_by
         (fun a b => String.leb (orders.ordered_at (fst b)) (orders.ordered_at (fst a)))
         (flat_map
            (fun o => map (fun i => (o, i))
                        (filter (fun i => orders.item_id o =? inventory.id i)
                                (tbl_inventory d)))
            (tbl_orders d))).

(** [[
    SELECT item, qty, reorder_level FROM inventory
    WHERE qty <= reorder_level ORDER BY qty
    ]] *)
Definition select_low_stock (d : database) : list (string * Z * Z) :=
  map (fun r => (inventory.item r, inventory.qty r, inventory.reorder_level r))
      (order_by (fun a b => inventory.qty a <=? inventory.qty b)
         (filter (fun r => inventory.qty r <=? inventory.reorder_level r)
                 (tbl_inventory d))).

(** The aggregate [SUM] over integers: NULL ([None]) over no rows, and an
    integer-overflow error as soon as a partial sum leaves 64 bits. *)
Fixpoint sum_from (acc : Z) (l : list Z) : exn + Z :=
  match l with
  | [] => inr acc
  | x :: r => if fits_int64 (acc + x) then sum_from (acc + x) r
              else inl OperationalError
  end.

Definition SUM (l : list Z) : exn + option Z :=
  match l with
  | [] => inr None
  | x :: r => match sum_from x r with
              | inr s => inr (Some s)
              | inl e => inl e
              end
  end.

Definition COALESCE (v : option Z) (d : Z) : Z :=
  match v with Some x => x | None => d end.

(** [SELECT COUNT( * ), COALESCE(SUM(qty), 0) FROM inventory] *)
Definition select_totals (d : database) : exn + (Z * Z) :=
  match SUM (map inventory.qty (tbl_inventory d)) with
  | inr s => inr (Z.of_nat (List.length (tbl_inventory d)), COALESCE s 0)
  | inl e => inl e
  end.

(** The groups of [GROUP BY category]: the distinct categories, each with
    its rows.  SQLite forms the groups by sorting on the category, and gives
    that sort the direction of the [ORDER BY] term of the statement, here
    [DESC]: the groups come in descending order of the category. *)
Definition groups (t : list inventory.row) : list (string * list inventory.row) :=
  map (fun c => (c, filter (fun r => inventory.category r =? c)%string t))
      (order_by (fun a b => String.leb b a)
                (nodup string_dec (map inventory.category t))).

Fixpoint aggregate (gs : list (string * list inventory.row))
    : exn + list (string * Z * Z) :=
  match gs with
  | [] => inr []
  | (c, rows) :: gs' =>
      match SUM (map inventory.qty rows) with
      | inl e => inl e
      | inr s =>
          match aggregate gs' with
          | inl e => inl e
          | inr out => inr ((c, Z.of_nat (List.length rows), COALESCE s 0) :: out)
          end
      end
  end.

(** [[
    SELECT category, COUNT( * ) items, COALESCE(SUM(qty), 0) qty
    FROM inventory GROUP BY category ORDER BY qty DESC
    ]]
    In [ORDER BY], [qty] is the result column of that name, the sum; groups
    with equal sums stay in the order in which they were formed. *)
Definition select_per_category (d : database) : exn + list (string * Z * Z) :=
  match aggregate (groups (tbl_inventory d)) with
  | inl e => inl e
  | inr out => inr (order_by (fun a b => snd b <=? snd a) out)
  end.

(** [DELETE FROM inventory WHERE item = ?], with the statement's rowcount. *)
Definition delete_item (item : string) (d : database) : database * Z :=
  let t := tbl_inventory d in
  let kept := filter (fun r => negb (inventory.item r =? item)%string) t in
  (with_inventory kept d, Z.of_nat (List.length t - List.length kept)).

End Sqlite.

(** ** CSV *)

Module Csv.

Definition delimiter : ascii := ",".
Definition quotechar : ascii := ascii_of_nat 34.
Definition CR : ascii := ascii_of_nat 13.
Definition LF : ascii := ascii_of_nat 10.
Definition lineterminator : string := String CR (String LF EmptyString).

(** The characters that make [csv.writer], with [QUOTE_MINIMAL], quote a
    field: the delimiter, the quote character and those of the line
    terminator. *)
Definition special (c : ascii) : bool :=
  Ascii.eqb c delimiter || Ascii.eqb c quotechar || Ascii.eqb c CR || Ascii.eqb c LF.

Fixpoint needs_quoting (s : string) : bool :=
  match s with
  | EmptyString => false
  | String c r => special c || needs_quoting r
  end.

(** [doublequote=True]: a quote character inside a field is written twice. *)
Fixpoint escape (s : string) : string :=
  match s with
  | EmptyString => EmptyString
  | String c r =>
      if Ascii.eqb c quotechar then String c (String c (escape r))
      else String c (escape r)
  end.

Definition write_field (s : string) : string :=
  if needs_quoting s
  then String quotechar (escape s ++ String quotechar EmptyString)
  else s.

(** [writer.writerow(fields)] for a row of two or more fields: the text
    appended to the file. *)
Definition writerow (fields : list string) : string :=
  String.concat (String delimiter EmptyString) (map write_field fields)
    ++ lineterminator.

(** [writer.writerows(rows)] *)
Definition writerows (rows : list (list string)) : string :=
  String.concat EmptyString (map writerow rows).

(** The counterpart of the writer, [csv.reader] in the same dialect over
    the file opened with [newline=""]; the program itself never reads the
    export back, the reader only serves to state the round trip.  Python
    feeds the reader line by line and signals each end of line; here the
    lines are folded into the automaton: [AFTER_CR] is its [EAT_CRNL] state
    while the line may still continue with a line feed. *)
Inductive state : Type :=
| START_RECORD | START_FIELD | IN_FIELD
| IN_QUOTED_FIELD | QUOTE_IN_QUOTED_FIELD | AFTER_CR.

Definition is_newline (c : ascii) : bool := Ascii.eqb c CR || Ascii.eqb c LF.

Definition add_char (fld : string) (c : ascii) : string :=
  fld ++ String c EmptyString.

Fixpoint read_from (st : state) (fld : string) (rec : list string) (s : string)
    {struct s} : list (list string) :=
  match s with
  | EmptyString =>
      match st with
      | START_RECORD => []
      | AFTER_CR => [rec]
      | _ => [(rec ++ [fld])%list]
      end
  | String c r =>
      let line_end (rec' : list string) :=
        if Ascii.eqb c LF then rec' :: read_from START_RECORD EmptyString [] r
        else read_from AFTER_CR EmptyString rec' r in
      let start_field (rec' : list string) :=
        if is_newline c then line_end (rec' ++ [EmptyString])%list
        else if Ascii.eqb c quotechar then read_from IN_QUOTED_FIELD EmptyString rec' r
        else if Ascii.eqb c delimiter
             then read_from START_FIELD EmptyString (rec' ++ [EmptyString])%list r
        else read_from IN_FIELD (String c EmptyString) rec' r in
      match st with
      | START_RECORD => if is_newline c then line_end [] else start_field []
      | START_FIELD => start_field rec
      | IN_FIELD =>
          if is_newline c then line_end (rec ++ [fld])%list
          else if Ascii.eqb c delimiter
               then read_from START_FIELD EmptyString (rec ++ [fld])%list r
          else read_from IN_FIELD (add_char fld c) rec r
      | IN_QUOTED_FIELD =>
          if Ascii.eqb c quotechar then read_from QUOTE_IN_QUOTED_FIELD fld rec r
          else read_from IN_QUOTED_FIELD (add_char fld c) rec r
      | QUOTE_IN_QUOTED_FIELD =>
          if Ascii.eqb c quotechar then read_from IN_QUOTED_FIELD (add_char fld c) rec r
          else if Ascii.eqb c delimiter
               then read_from START_FIELD EmptyString (rec ++ [fld])%list r
          else if is_newline c then line_end (rec ++ [fld])%list
          else read_from IN_FIELD (add_char fld c) rec r
      | AFTER_CR =>
          if Ascii.eqb c LF then rec :: read_from START_RECORD EmptyString [] r
          else rec :: (if is_newline c then line_end [] else start_field [])
      end
  end.

(** [list(csv.reader(f))] *)
Definition reader (s : string) : list (list string) :=
  read_from START_RECORD EmptyString [] s.

End Csv.

(** ** The operations of app.py *)

Module App.

Import Sqlite.

(** Everything an operation reads or changes. *)
Record World : Type := mkWorld {
  stdin : list string;         (* the lines [input] has still to read *)
  stdout : list string;        (* what was written, oldest first *)
  clock : nat -> string;       (* [datetime.utcnow().isoformat()], by reading *)
  ticks : nat;                 (* readings of the clock so far *)
  db_file : database;          (* inventory.db: the committed state *)
  conn : database;             (* the state seen through the open connection *)
  connections : nat;           (* calls of [connect_db] so far *)
  export_file : option string  (* inventory_export.csv, [None] while absent *)
}.

Definition set_stdin (v : list string) (w : World) : World :=
  mkWorld v (stdout w) (clock w) (ticks w) (db_file w) (conn w)
          (connections w) (export_file w).
Definition set_stdout (v : list string) (w : World) : World :=
  mkWorld (stdin w) v (clock w) (ticks w) (db_file w) (conn w)
          (connections w) (export_file w).
Definition set_ticks (v : nat) (w : World) : World :=
  mkWorld (stdin w) (stdout w) (clock w) v (db_file w) (conn w)
          (connections w) (export_file w).
Definition set_db_file (v : database) (w : World) : World :=
  mkWorld (stdin w) (stdout w) (clock w) (ticks w) v (conn w)
          (connections w) (export_file w).
Definition set_conn (v : database) (w : World) : World :=
  mkWorld (stdin w) (stdout w) (clock w) (ticks w) (db_file w) v
          (connections w) (export_file w).
Definition set_connections (v : nat) (w : World) : World :=
  mkWorld (stdin w) (stdout w) (clock w) (ticks w) (db_file w) (conn w)
          v (export_file w).
Definition set_export_file (v : option string) (w : World) : World :=
  mkWorld (stdin w) (stdout w) (clock w) (ticks w) (db_file w) (conn w)
          (connections w) v.

(** How a call ends: with a value, or with an exception that unwinds to
    the caller; either way in a new world. *)
Inductive outcome (A : Type) : Type :=
| Return (a : A) (w : World)
| Raise (e : exn) (w : World).
Arguments Return {A} a w.
Arguments Raise {A} e w.

Definition M (A : Type) : Type := World -> outcome A.

Definition ret {A : Type} (a : A) : M A := fun w => Return a w.

Definition bind {A B : Type} (c : M A) (k : A -> M B) : M B :=
  fun w => match c w with
           | Return a w' => k a w'
           | Raise e w' => Raise e w'
           end.

Definition raise {A : Type} (e : exn) : M A := fun w => Raise e w.

Declare Scope py_scope.
Delimit Scope py_scope with py.
Notation "x <- c ;; k" := (bind c (fun x => k))
  (at level 61, c at next level, right associativity) : py_scope.
Notation "c ;; k" := (bind c (fun _ => k))
  (at level 61, right associativity) : py_scope.
Local Open Scope py_scope.

(** The world an outcome ends in. *)
Definition world_of {A : Type} (o : outcome A) : World :=
  match o with Return _ w => w | Raise _ w => w end.

Definition write (s : string) : M unit :=
  fun w => Return tt (set_stdout (stdout w ++ [s]) w).

(** [print(s)] *)
Definition print (s : string) : M unit := write (s ++ Py.nl).

(** [input(message)]: the prompt is written, one line is read. *)
Definition input (message : string) : M string :=
  write message ;;
  fun w => match stdin w with
           | [] => Raise EOFError w
           | line :: rest => Return line (set_stdin rest w)
           end.

(** [datetime.utcnow().isoformat()] *)
Definition utcnow_isoformat : M string :=
  fun w => Return (clock w (ticks w)) (set_ticks (S (ticks w)) w).

(** The loop of [prompt_int], by recursion on the lines left to read: each
    turn reads one. *)
Fixpoint prompt_int_loop (message : string) (minimum : Z) (lines : list string)
    : M Z :=
  match lines with
  | [] => _ <- input message ;; raise EOFError
  | _ :: lines' =>
      line <- input message ;;
      match Py.int line with
      | None =>
          print "Please enter a valid number." ;;
          prompt_int_loop message minimum lines'
      | Some value =>
          if value <? minimum then
            print ("Value must be at least " ++ Py.str minimum ++ ".") ;;
            prompt_int_loop message minimum lines'
          else ret value
      end
  end.

Definition prompt_int (message : string) (minimum : Z) : M Z :=
  fun w => prompt_int_loop message minimum (stdin w) w.

(** [conn.execute] of a statement that writes. *)
Definition execute (stmt : database -> exn + database) : M unit :=
  fun w => match stmt (conn w) with
           | inr d => Return tt (set_conn d w)
           | inl e => Raise e w
           end.

(** [conn.execute(...).fetchall()] or [.fetchone()] of a query. *)
Definition fetch {A : Type} (q : database -> A) : M A :=
  fun w => Return (q (conn w)) w.

(** The same for a query that can fail. *)
Definition fetch_checked {A : Type} (q : database -> exn + A) : M A :=
  fun w => match q (conn w) with
           | inr a => Return a w
           | inl e => Raise e w
           end.

(** [conn.commit()] *)
Definition commit : M unit :=
  fun w => Return tt (set_db_file (conn w) w).

(** [with connect_db() as conn: body]: a new connection on the database
    file; on leaving the block the transaction is committed, or rolled
    back when the block raised. *)
Definition with_connect_db {A : Type} (body : M A) : M A :=
  fun w =>
    let w1 := set_conn (db_file w) (set_connections (S (connections w)) w) in
    match body w1 with
    | Return a w2 => Return a (set_db_file (conn w2) w2)
    | Raise e w2 => Raise e (set_conn (db_file w2) w2)
    end.

Fixpoint for_each {A : Type} (f : A -> M unit) (l : list A) : M unit :=
  match l with
  | [] => ret tt
  | x :: r => f x ;; for_each f r
  end.

Definition add_or_update_item : M unit :=
  item <- input "Item name: " ;;
  let item := Py.strip item in
  if negb (Py.truthy item) then print "Item name cannot be empty."
  else
    category <- input "Category (default General): " ;;
    let category := Py.or_else (Py.strip category) "General" in
    qty <- prompt_int "Quantity: " 0 ;;
    reorder_level <- prompt_int "Reorder level: " 0 ;;
    with_connect_db
      (execute (upsert_item item category qty reorder_level) ;;
       commit) ;;
    print ("Saved '" ++ item ++ "' (" ++ Py.str qty ++ " units).").

Definition view_inventory : M unit :=
  rows <- with_connect_db (fetch select_inventory) ;;
  match rows with
  | [] => print "Inventory is empty."
  | _ =>
      print (Py.nl ++ Py.ljust 20 "Item" ++ " " ++ Py.ljust 15 "Category" ++ " "
               ++ Py.ljust 5 "Qty" ++ " " ++ Py.ljust 10 "Reorder @") ;;
      print (String.concat "" (repeat "-" 55)) ;;
      for_each
        (fun row : string * string * Z * Z =>
           let '(item, category, qty, reorder_level) := row in
           print (Py.ljust 20 (Py.slice_to 20 item) ++ " "
                    ++ Py.ljust 15 (Py.slice_to 15 category) ++ " "
                    ++ Py.rjust 5 (Py.str qty) ++ " "
                    ++ Py.rjust 10 (Py.str reorder_level)))
        rows
  end.

Definition search_inventory : M unit :=
  term <- input "Search term: " ;;
  let term := Py.lower (Py.strip term) in
  if negb (Py.truthy term) then print "Nothing to search."
  else
    rows <- with_connect_db
              (fetch_checked
                 (select_matching ("%" ++ term ++ "%") ("%" ++ term ++ "%"))) ;;
    match rows with
    | [] => print "No matching items found."
    | _ =>
        for_each
          (fun row : string * string * Z * Z =>
             let '(item, category, qty, reorder_level) := row in
             print (item ++ " (" ++ category ++ ") - " ++ Py.str qty
                      ++ " units (reorder @ " ++ Py.str reorder_level ++ ")"))
          rows
    end.

Definition adjust_quantity : M unit :=
  item <- input "Item to adjust: " ;;
  let item := Py.strip item in
  delta <- prompt_int "Adjustment amount (use positive numbers): " 0 ;;
  direction <- input "Add or subtract (a/s): " ;;
  let direction := Py.or_else (Py.lower (Py.strip direction)) "a" in
  let multiplier := if Py.startswith direction "a" then 1 else -1 in
  done <- with_connect_db
    (row <- fetch (select_id_qty item) ;;
     match row with
     | None => print "Item not found." ;; ret None
     | Some (id, qty) =>
         let new_qty := qty + multiplier * delta in
         if new_qty <? 0 then print "Cannot reduce below zero." ;; ret None
         else
           execute (update_qty new_qty id) ;;
           commit ;;
           ret (Some new_qty)
     end) ;;
  match done with
  | None => ret tt
  | Some new_qty => print (item ++ " now has " ++ Py.str new_qty ++ " units.")
  end.

Definition place_order : M unit :=
  item <- input "Item to order: " ;;
  let item := Py.strip item in
  qty <- prompt_int "Quantity: " 1 ;;
  note <- input "Note (optional): " ;;
  let note := Py.or_None (Py.strip note) in
  done <- with_connect_db
    (row <- fetch (select_id_qty item) ;;
     match row with
     | None => print "Item not found." ;; ret false
     | Some (id, stock) =>
         if stock <? qty then print "Not enough stock for this order." ;; ret false
         else
           execute (update_qty_minus qty id) ;;
           now <- utcnow_isoformat ;;
           execute (insert_order id qty note now) ;;
           commit ;;
           ret true
     end) ;;
  if done then print ("Order recorded for " ++ Py.str qty ++ " units of " ++ item ++ ".")
  else ret tt.

Definition view_orders : M unit :=
  rows <- with_connect_db (fetch select_orders) ;;
  match rows with
  | [] => print "No orders recorded."
  | _ =>
      for_each
        (fun row : Z * string * Z * option string * string =>
           let '(id, item, qty, note, ordered_at) := row in
           let note :=
             match note with
             | Some n => if Py.truthy n then " (" ++ n ++ ")" else ""
             | None => ""
             end in
           print (ordered_at ++ ": #" ++ Py.str id ++ " " ++ item ++ " x"
                    ++ Py.str qty ++ note))
        rows
  end.

Definition view_low_stock : M unit :=
  rows <- with_connect_db (fetch select_low_stock) ;;
  match rows with
  | [] => print "No items at or below reorder level."
  | _ =>
      print "Items needing restock:" ;;
      for_each
        (fun row : string * Z * Z =>
           let '(item, qty, reorder_level) := row in
           print ("- " ++ item ++ ": " ++ Py.str qty ++ " (reorder @ "
                    ++ Py.str reorder_level ++ ")"))
        rows
  end.

Definition csv_header : list string := ["item"; "category"; "qty"; "reorder_level"].

(** The tuple handed to [writerows] for one row; the writer renders the
    integers with [str]. *)
Definition csv_fields (row : string * string * Z * Z) : list string :=
  let '(item, category, qty, reorder_level) := row in
  [item; category; Py.str qty; Py.str reorder_level].

Definition export_inventory : M unit :=
  rows <- with_connect_db (fetch select_inventory) ;;
  match rows with
  | [] => print "Inventory empty, nothing to export."
  | _ =>
      (fun w =>
         Return tt
           (set_export_file
              (Some (Csv.writerow csv_header ++ Csv.writerows (map csv_fields rows)))
              w)) ;;
      print ("Exported " ++ Py.str (Z.of_nat (List.length rows))
               ++ " rows to inventory_export.csv.")
  end.

Definition inventory_summary : M unit :=
  r <- with_connect_db
         (totals <- fetch_checked select_totals ;;
          per_category <- fetch_checked select_per_category ;;
          ret (totals, per_category)) ;;
  let '(totals, per_category) := r in
  print "=== Snapshot ===" ;;
  print ("Items tracked: " ++ Py.str (fst totals)) ;;
  print ("Units on hand: " ++ Py.str (snd totals)) ;;
  match per_category with
  | [] => print "No category data yet."
  | _ =>
      print "Per category:" ;;
      for_each
        (fun row : string * Z * Z =>
           let '(category, items, qty) := row in
           print ("- " ++ category ++ ": " ++ Py.str qty ++ " units across "
                    ++ Py.str items ++ " items"))
        per_category
  end.

Definition delete_item : M unit :=
  item <- input "Item to delete: " ;;
  let item := Py.strip item in
  deleted <- with_connect_db
    (fun w =>
       let (d, rowcount) := Sqlite.delete_item item (conn w) in
       (commit ;; ret rowcount) (set_conn d w)) ;;
  if deleted =? 0 then print "Item not found."
  else print ("Deleted " ++ item ++ ". Related order history remains for auditing.").

(** A world at the prompt of the menu: nothing read or written yet. *)
Definition boot (lines : list string) (clk : nat -> string) (d : database) : World :=
  mkWorld lines [] clk 0 d d 0 None.

(** Run operations one after the other, as the menu loop does. *)
Fixpoint run (ops : list (M unit)) : M unit :=
  match ops with
  | [] => ret tt
  | op :: ops' => op ;; run ops'
  end.

End App.

(** ** The menu *)

Module Main.

Import Sqlite App.
Local Open Scope py_scope.

(** [CREATE TABLE IF NOT EXISTS ...]: a [database] always has its two
    tables, empty on a fresh file ([Sqlite.empty]), so the statement finds
    them and changes nothing. *)
Definition create_table_if_not_exists (d : database) : exn + database := inr d.

Definition create_tables : M unit :=
  with_connect_db
    (execute create_table_if_not_exists ;;
     execute create_table_if_not_exists ;;
     commit).

(** [menu_options], in the order of the dictionary. *)
Definition menu_options : list (string * (string * option (M unit))) :=
  [ ("1", ("Add or update item", Some add_or_update_item));
    ("2", ("View inventory", Some view_inventory));
    ("3", ("Search inventory", Some search_inventory));
    ("4", ("Adjust quantity", Some adjust_quantity));
    ("5", ("Record customer order", Some place_order));
    ("6", ("View order history", Some view_orders));
    ("7", ("View low-stock items", Some view_low_stock));
    ("8", ("Delete item", Some delete_item));
    ("9", ("Export inventory to CSV", Some export_inventory));
    ("10", ("Snapshot summary", Some inventory_summary));
    ("11", ("Exit", None)) ].

(** [menu_options.get(choice)] *)
Fixpoint get {V : Type} (key : string) (options : list (string * V)) : option V :=
  match options with
  | [] => None
  | (k, v) :: rest => if (k =? key)%string then Some v else get key rest
  end.

(** The loop of [main].  Every turn reads at least the line of the choice,
    so the lines left to read bound the number of turns; [turns] is that
    bound.  The entry of key 11 holds no function: the loop is left before
    it is looked up. *)
(** What the loop does with a choice other than 11. *)
Definition chosen (choice : string) : M unit :=
  match get choice menu_options with
  | Some (_, Some func) => func
  | Some (_, None) => ret tt
  | None => print "Unknown option."
  end.

Fixpoint menu_loop (turns : list string) : M unit :=
  print (Py.nl ++ "Inventory Tracker") ;;
  for_each (fun entry : string * (string * option (M unit)) =>
              print (fst entry ++ ". " ++ fst (snd entry)))
           menu_options ;;
  match turns with
  | [] => _ <- input "Choose: " ;; raise EOFError
  | _ :: turns' =>
      choice <- input "Choose: " ;;
      let choice := Py.strip choice in
      if (choice =? "11")%string then ret tt
      else chosen choice ;; menu_loop turns'
  end.

(** The menu as printed at the start of every turn. *)
Definition menu_lines : list string :=
  ((Py.nl ++ "Inventory Tracker") ++ Py.nl)
    :: map (fun entry : string * (string * option (M unit)) =>
              (fst entry ++ ". " ++ fst (snd entry)) ++ Py.nl)
           menu_options.

Definition main : M unit :=
  create_tables ;;
  fun w => menu_loop (stdin w) w.

(** The ten operations of the menu, and those among them that only query
    the store. *)
Definition operations : list (M unit) :=
  [ add_or_update_item; view_inventory; search_inventory; adjust_quantity;
    place_order; view_orders; view_low_stock; delete_item; export_inventory;
    inventory_summary ].

Definition queries : list (M unit) :=
  [ view_inventory; search_inventory; view_orders; view_low_stock;
    export_inventory; inventory_summary ].

End Main.

(** ** Vocabulary of the statements *)

Module Spec.

Import Sqlite App.

(** A line [prompt_int] turns down: not a number, or one below the minimum. *)
Definition rejected (minimum : Z) (line : string) : Prop :=
  match Py.int line with
  | None => True
  | Some v => v < minimum
  end.

(** The lines [lines] answer a [prompt_int] with [v]: some rejected lines,
    then a line that [int] reads as [v], then [rest]. *)
Definition answers (minimum : Z) (lines : list string) (v : Z)
    (rest : list string) : Prop :=
  exists bad good,
    lines = (bad ++ good :: rest)%list /\ Forall (rejected minimum) bad /\
    Py.int good = Some v /\ minimum <= v.

(** What the schema of [create_tables] guarantees of the stored rows of
    [inventory]: the primary key and the item name are unique, both CHECK
    constraints hold, and every integer is a 64-bit one. *)
Record valid (d : database) : Prop := mk_valid {
  unique_id : NoDup (map inventory.id (tbl_inventory d));
  unique_item : NoDup (map inventory.item (tbl_inventory d));
  checks : Forall (fun r => 0 <= inventory.qty r /\ 0 <= inventory.reorder_level r)
                  (tbl_inventory d);
  stored : Forall (fun r => all_fit [inventory.id r; inventory.qty r;
                                    inventory.reorder_level r] = true)
                  (tbl_inventory d)
}.

(** The stored quantities are not negative. *)
Definition no_negative_qty (d : database) : Prop :=
  Forall (fun r => 0 <= inventory.qty r) (tbl_inventory d).


(** The last thing written to the console. *)
Definition last_output (w : World) : string := last (stdout w) EmptyString.

(** [s] occurs in [t] as a substring. *)
Definition substring_of (s t : string) : Prop :=
  exists a b, t = a ++ s ++ b.

(** The columns of the item listing and of the export. *)
Definition columns (r : inventory.row) : string * string * Z * Z :=
  (inventory.item r, inventory.category r, inventory.qty r,
   inventory.reorder_level r).

(** The columns of the low-stock report, and its condition on them. *)
Definition stock_columns (r : inventory.row) : string * Z * Z :=
  (inventory.item r, inventory.qty r, inventory.reorder_level r).

Definition is_low (row : string * Z * Z) : bool := snd (fst row) <=? snd row.

(** One exported row read back as a tuple of the item listing: the two
    texts as they are, the two numbers through [int]. *)
Definition read_tuple (fields : list string) : option (string * string * Z * Z) :=
  match fields with
  | [item; category; qty; reorder_level] =>
      match Py.int qty, Py.int reorder_level with
      | Some q, Some r => Some (item, category, q, r)
      | _, _ => None
      end
  | _ => None
  end.

(** The sum of a list of integers, in unbounded arithmetic. *)
Definition total (l : list Z) : Z := fold_right Z.add 0 l.

(** The rows of category [c]. *)
Definition in_category (c : string) (t : list inventory.row) : list inventory.row :=
  filter (fun r => inventory.category r =? c)%string t.




(** [w'] differs from [w] on the console only. *)
Definition console_step (w w' : World) : Prop :=
  exists sin sout, w' = set_stdin sin (set_stdout sout w).

End Spec.

(** ** Invariants of the operations *)

Module Frame.

Import Sqlite App.

(** [c] keeps [I]: from a world where [I] holds, [c] ends, with a value or
    with an exception, in a world where [I] holds. *)
Definition keeps {A : Type} (I : World -> Prop) (c : M A) : Prop :=
  forall w, I w -> I (world_of (c w)).

(** [I] does not mind what happens on the console, the clock and the export
    file. *)
Record console_closed (I : World -> Prop) : Prop := mk_console_closed {
  closed_write : forall w out, I w -> I (set_stdout out w);
  closed_read : forall w line rest,
      I w -> stdin w = line :: rest -> I (set_stdin rest w);
  closed_tick : forall w, I w -> I (set_ticks (S (ticks w)) w);
  closed_export : forall w f, I w -> I (set_export_file f w)
}.

(** [Iout] between the operations and [Iin] inside a [with connect_db()]
    block fit together: opening the connection, committing, and leaving the
    block either way. *)
Record transaction_closed (Iout Iin : World -> Prop) : Prop := mk_transaction_closed {
  closed_open : forall w,
      Iout w -> Iin (set_conn (db_file w) (set_connections (S (connections w)) w));
  closed_commit : forall w, Iin w -> Iin (set_db_file (conn w) w);
  closed_leave : forall w, Iin w -> Iout (set_db_file (conn w) w);
  closed_rollback : forall w, Iin w -> Iout (set_conn (db_file w) w)
}.

(** [Iin] survives the statements the operations execute, with the
    arguments the operations pass: a stripped, non-empty name and a non-empty
    category to the upsert, an order quantity of at least one. *)
Record statements_closed (Iin : World -> Prop) : Prop := mk_statements_closed {
  closed_upsert : forall w name_line category_line qty reorder_level d,
      Py.strip name_line <> EmptyString ->
      Iin w ->
      upsert_item (Py.strip name_line)
        (Py.or_else (Py.strip category_line) "General") qty reorder_level (conn w)
      = inr d ->
      Iin (set_conn d w);
  closed_update_qty : forall w new_qty id d,
      Iin w -> update_qty new_qty id (conn w) = inr d -> Iin (set_conn d w);
  closed_update_qty_minus : forall w q id d,
      1 <= q -> Iin w -> update_qty_minus q id (conn w) = inr d ->
      Iin (set_conn d w);
  closed_insert_order : forall w item_id qty note ordered_at d,
      Iin w -> insert_order item_id qty note ordered_at (conn w) = inr d ->
      Iin (set_conn d w);
  closed_delete : forall w name,
      Iin w -> Iin (set_conn (fst (Sqlite.delete_item name (conn w))) w)
}.

(** A property of the database file, between the operations. *)
Definition on_file (P : database -> Prop) (w : World) : Prop := P (db_file w).

(** The same property of the file and of the open connection's view. *)
Definition in_transaction (P : database -> Prop) (w : World) : Prop :=
  P (db_file w) /\ P (conn w).

(** What the schema and the operations together guarantee of a stored
    state: unique ids and names, no empty name or category, quantities and
    reorder levels that are non-negative 64-bit integers, and orders with
    unique ids and positive 64-bit quantities. *)
Record constraints (d : database) : Prop := mk_constraints {
  item_ids : NoDup (map inventory.id (tbl_inventory d));
  item_names : NoDup (map inventory.item (tbl_inventory d));
  item_rows :
    Forall (fun r => inventory.item r <> EmptyString /\
                     inventory.category r <> EmptyString /\
                     0 <= inventory.qty r < 2 ^ 63 /\
                     0 <= inventory.reorder_level r < 2 ^ 63)
           (tbl_inventory d);
  order_ids : NoDup (map orders.id (tbl_orders d));
  order_rows : Forall (fun o => 1 <= orders.qty o < 2 ^ 63) (tbl_orders d)
}.

(** The table [t] with [q] taken from the quantity of the rows whose id is
    [id]. *)
Definition take_from (id q : Z) (t : list inventory.row) : list inventory.row :=
  map (fun r => if inventory.id r =? id
                then inventory.mk (inventory.id r) (inventory.item r)
                       (inventory.category r) (inventory.qty r - q)
                       (inventory.reorder_level r)
                else r) t.

(** The items of a store by id and name, in rowid order. *)
Definition names (d : database) : list (Z * string) :=
  map (fun r => (inventory.id r, inventory.item r)) (tbl_inventory d).

(** [c] raises only exceptions in [E]; [c] returns only values in [Q]. *)
Definition raises {A : Type} (E : exn -> Prop) (c : M A) : Prop :=
  forall w e w', c w = Raise e w' -> E e.

Definition returns {A : Type} (Q : A -> Prop) (c : M A) : Prop :=
  forall w a w', c w = Return a w' -> Q a.

End Frame.

(** ** Concrete stores and consoles for the examples *)

Module Demo.

Import Sqlite App.

(** The clock of the examples: the n-th reading, for the first ten, is the
    n-th second of 1 January 2024. *)
Definition clk (n : nat) : string :=
  "2024-01-01T00:00:0" ++ Py.str (Z.of_nat n).

(** One item, as after scenarios 1 to 3 of the specification. *)
Definition widget5 : database :=
  mkdb [inventory.mk 1 "Widget" "Hardware" 5 3] [].

Definition ordering : World :=
  boot ["Widget"; "three"; "0"; "3"; " rush "] clk widget5.
Definition saving_twice : World :=
  boot ["Widget"; ""; "10"; "-1"; "3";
        " Widget "; "Hardware"; "12"; "4"] clk widget5.

(** The second call's quantity is 2^63. *)
Definition saving_too_much : World :=
  boot ["Widget"; "Hardware"; "10"; "3";
        "Widget"; "Hardware"; "9223372036854775808"; "3"] clk Sqlite.empty.

(** Scenarios 1, 4 and 5 of the specification: an item is saved, ordered
    and deleted. *)
Definition deleted_widget : World :=
  world_of
    (run [add_or_update_item; place_order; delete_item]
         (boot ["Widget"; "Hardware"; "10"; "3";
                "Widget"; "3"; "rush";
                "Widget"] clk Sqlite.empty)).

(** Two items are saved and ordered, then the second is deleted; the lines
    for saving a third item are still to be read. *)
Definition deleted_gadget : World :=
  world_of
    (run [add_or_update_item; add_or_update_item; place_order; place_order;
          delete_item]
         (boot ["Widget"; "Hardware"; "10"; "3";
                "Gadget"; "Hardware"; "4"; "1";
                "Widget"; "3"; "rush";
                "Gadget"; "2"; "";
                "Gadget";
                "Gizmo"; ""; "1"; "1"] clk Sqlite.empty)).

(** Two items whose quantities, each a 64-bit integer, add up to 2^63. *)
Definition heavy : database :=
  mkdb [inventory.mk 1 "Sand" "Bulk" 4611686018427387904 0;
        inventory.mk 2 "Gravel" "Bulk" 4611686018427387904 0] [].

(** Two items of one category. *)
Definition parts : database :=
  mkdb [inventory.mk 1 "Nut" "Parts" 4 2; inventory.mk 2 "Bolt" "Parts" 9 2] [].

(** Four categories, two pairs of them with equal sums. *)
Definition tied : database :=
  mkdb [inventory.mk 1 "Anvil" "A" 5 1; inventory.mk 2 "Bolt" "B" 2 1;
        inventory.mk 3 "Cog" "C" 2 1; inventory.mk 4 "Clamp" "C" 3 1;
        inventory.mk 5 "Drill" "D" 2 1] [].

(** A session at the menu over a fresh store: an item is saved and
    ordered, a choice is mistyped, and the program is left with a line
    still unread. *)
Definition session : World :=
  boot ["1"; "Widget"; "Hardware"; "10"; "3";
        "5"; "Widget"; "3"; "rush";
        "x"; " 11 "; "2"] clk Sqlite.empty.

(** A name of blanks only at the prompt of [add_or_update_item]. *)
Definition naming_nothing : World := boot ["   "; "Widget"] clk widget5.

Definition ordering_unknown : World := boot ["Gadget"; "2"; ""] clk widget5.
Definition adding_too_much : World :=
  boot ["Widget"; "9223372036854775807"; "a"] clk widget5.

(** An item is saved and ordered, and still stored. *)
Definition ordered_widget : World :=
  world_of
    (run [add_or_update_item; place_order]
         (boot ["Widget"; "Hardware"; "10"; "3";
                "Widget"; "3"; "rush"] clk Sqlite.empty)).

End Demo.

(** * Properties *)

Import Sqlite App Main Spec Frame.
Local Open Scope py_scope.

Arguments Py.strip : simpl never.
Arguments Py.str : simpl never.
Arguments Py.int : simpl never.
Arguments String.append : simpl never.

Lemma append_nil (s : string) : "" ++ s = s.
Proof. reflexivity. Qed.

Lemma append_cons (c : ascii) (a s : string) : String c a ++ s = String c (a ++ s).
Proof. reflexivity. Qed.

Ltac world :=
  unfold set_stdin, set_stdout, set_ticks, set_db_file, set_conn,
    set_connections, set_export_file in *;
  cbn [stdin stdout clock ticks db_file conn connections export_file world_of] in *.

(** ** The console *)

Section Console.

Lemma input_run (message line : string) (rest : list string) (w : World) :
  stdin w = line :: rest ->
  input message w
  = Return line (set_stdin rest (set_stdout (stdout w ++ [message]) w)).
Proof.
  intros H. unfold input, bind, write. simpl. rewrite H. reflexivity.
Qed.

Lemma input_eof (message : string) (w : World) :
  stdin w = [] ->
  input message w = Raise EOFError (set_stdout (stdout w ++ [message]) w).
Proof.
  intros H. unfold input, bind, write. simpl. rewrite H. reflexivity.
Qed.



Lemma console_step_refl (w : World) : console_step w w.
Proof. exists (stdin w), (stdout w). now destruct w. Qed.

Lemma console_step_trans (w1 w2 w3 : World) :
  console_step w1 w2 -> console_step w2 w3 -> console_step w1 w3.
Proof.
  intros (i1 & o1 & ->) (i2 & o2 & ->). exists i2, o2. reflexivity.
Qed.

Lemma console_step_store (w w' : World) :
  console_step w w' ->
  db_file w' = db_file w /\ conn w' = conn w /\ export_file w' = export_file w
  /\ connections w' = connections w /\ clock w' = clock w /\ ticks w' = ticks w.
Proof. intros (i & o & ->). repeat split. Qed.

Lemma console_step_write (out : list string) (w : World) :
  console_step w (set_stdout out w).
Proof. exists (stdin w), out. now destruct w. Qed.

Lemma print_console (s : string) (w : World) :
  exists w', print s w = Return tt w' /\ console_step w w'.
Proof. eexists. split; [reflexivity|]. apply console_step_write. Qed.

Lemma input_console (message : string) (w : World) :
  console_step w (world_of (input message w)).
Proof.
  unfold input, bind, write. world.
  destruct (stdin w) as [|l r] eqn:E; world.
  - exists (stdin w), (stdout w ++ [message])%list. destruct w; world. now subst.
  - exists r, (stdout w ++ [message])%list. reflexivity.
Qed.

Lemma prompt_int_loop_console (message : string) (minimum : Z)
    (lines : list string) :
  forall w, console_step w (world_of (prompt_int_loop message minimum lines w)).
Proof.
  induction lines as [|l lines IH]; intros w; simpl.
  - unfold bind. pose proof (input_console message w) as H.
    destruct (input message w); exact H.
  - unfold bind at 1. pose proof (input_console message w) as H.
    destruct (input message w) as [line w1|e w1]; world; [|exact H].
    destruct (Py.int line) as [v|].
    + destruct (v <? minimum).
      * unfold bind, print, write. cbv beta iota.
        eapply console_step_trans; [exact H|].
        eapply console_step_trans; [|apply IH]. apply console_step_write.
      * exact H.
    + unfold bind, print, write. cbv beta iota.
      eapply console_step_trans; [exact H|].
      eapply console_step_trans; [|apply IH]. apply console_step_write.
Qed.

Lemma prompt_int_console (message : string) (minimum : Z) (w : World) :
  console_step w (world_of (prompt_int message minimum w)).
Proof. apply prompt_int_loop_console. Qed.

End Console.

Ltac read_line :=
  unfold bind at 1; erewrite input_run by reflexivity; cbv beta iota; world.



Ltac prove_valid :=
  constructor; simpl;
  repeat (constructor; simpl; try lia; try reflexivity;
          try (intros H; intuition discriminate)).


Lemma parts_valid : valid Demo.parts.
Proof. prove_valid. Qed.

(** ** Statements that change a quantity *)

Section Quantity.

Lemma fits_int64_iff (z : Z) : fits_int64 z = true <-> - 2 ^ 63 <= z < 2 ^ 63.
Proof. unfold fits_int64. rewrite andb_true_iff, Z.leb_le, Z.ltb_lt. tauto. Qed.











End Quantity.

(** ** Orders *)

Section Orders.



End Orders.

(** ** Adjustments *)

Section Adjustments.












End Adjustments.

(** ** Adding or updating an item *)

Section Upsert.


Lemma existsb_item (name : string) (t : list inventory.row) :
  existsb (fun r => inventory.item r =? name)%string t = true
  <-> In name (map inventory.item t).
Proof.
  rewrite existsb_exists, in_map_iff. split.
  - intros (r & Hin & E). exists r. split; [now apply String.eqb_eq|assumption].
  - intros (r & E & Hin). exists r. split; [assumption|now apply String.eqb_eq].
Qed.

Lemma map_item_replaced (name category : string) (qty reorder_level : Z)
    (t : list inventory.row) :
  map inventory.item
    (map (fun r => if (inventory.item r =? name)%string
                   then inventory.mk (inventory.id r) name category qty reorder_level
                   else r) t)
  = map inventory.item t.
Proof.
  induction t as [|r t IH]; simpl; [reflexivity|]. rewrite IH. f_equal.
  destruct (String.eqb_spec (inventory.item r) name) as [E|NE]; simpl; congruence.
Qed.







End Upsert.

(** ** ORDER BY *)

Section OrderBy.

Context {A : Type} (le : A -> A -> bool).
Hypothesis le_total : forall a b, le a b = true \/ le b a = true.

Lemma insert_by_perm (x : A) (l : list A) :
  Permutation (x :: l) (insert_by le x l).
Proof.
  induction l as [|y l IH]; simpl; [reflexivity|].
  destruct (le x y); [reflexivity|].
  rewrite perm_swap. now constructor.
Qed.

Lemma order_by_perm (l : list A) : Permutation l (order_by le l).
Proof.
  induction l as [|x l IH]; simpl; [constructor|].
  rewrite <- insert_by_perm. now constructor.
Qed.

Lemma insert_by_hd (a x : A) (l : list A) :
  le a x = true ->
  HdRel (fun a b => le a b = true) a l ->
  HdRel (fun a b => le a b = true) a (insert_by le x l).
Proof.
  intros Hax Hl. destruct l as [|y l]; simpl.
  - now constructor.
  - destruct (le x y); constructor; [assumption|].
    now inversion Hl.
Qed.

Lemma insert_by_sorted (x : A) (l : list A) :
  Sorted (fun a b => le a b = true) l ->
  Sorted (fun a b => le a b = true) (insert_by le x l).
Proof.
  induction l as [|y l IH]; simpl; intros Hs.
  - repeat constructor.
  - inversion Hs as [|? ? Hl Hy]; subst.
    destruct (le x y) eqn:E.
    + constructor; [assumption|]. now constructor.
    + constructor; [now apply IH|].
      apply insert_by_hd; [|assumption].
      destruct (le_total x y) as [H|H]; [congruence|exact H].
Qed.

Lemma order_by_sorted (l : list A) :
  Sorted (fun a b => le a b = true) (order_by le l).
Proof.
  induction l as [|x l IH]; simpl; [constructor|].
  now apply insert_by_sorted.
Qed.

Lemma order_by_In (x : A) (l : list A) : In x (order_by le l) <-> In x l.
Proof.
  split; apply Permutation_in; [symmetry|]; apply order_by_perm.
Qed.

(** The sort is stable: of two rows with equal keys, the one that came
    first stays first.  [before] is any relation that held between each row
    and the rows after it. *)
Lemma order_by_stable (before : A -> A -> Prop) (l : list A) :
  (forall a b c, le a b = true -> le b c = true -> le a c = true) ->
  StronglySorted before l ->
  StronglySorted (fun a b => le a b = true /\ (le b a = true -> before a b))
                 (order_by le l).
Proof.
  intros Htrans.
  assert (Hins : forall x m,
             Forall (before x) m ->
             StronglySorted
               (fun a b => le a b = true /\ (le b a = true -> before a b)) m ->
             StronglySorted
               (fun a b => le a b = true /\ (le b a = true -> before a b))
               (insert_by le x m)).
  { intros x m. induction m as [|y m IH]; intros Hx Hm; cbn [insert_by].
    - repeat constructor.
    - inversion Hx as [|? ? Hxy Hxm]; subst.
      inversion Hm as [|? ? Hm' Hy]; subst.
      destruct (le x y) eqn:Exy.
      + constructor; [exact Hm|]. constructor; [split; [exact Exy|auto]|].
        apply Forall_forall. intros z Hz. split.
        * apply (Htrans x y z Exy).
          exact (proj1 (proj1 (Forall_forall _ _) Hy z Hz)).
        * intros _. exact (proj1 (Forall_forall _ _) Hxm z Hz).
      + constructor; [exact (IH Hxm Hm')|].
        apply (Permutation_Forall (insert_by_perm x m)).
        constructor; [|exact Hy].
        split; [|congruence].
        destruct (le_total y x) as [H|H]; [exact H|congruence]. }
  induction 1 as [|x l Hl IH Hx]; cbn [order_by fold_right]; [constructor|].
  apply Hins; [|exact IH].
  exact (Permutation_Forall (order_by_perm l) Hx).
Qed.

End OrderBy.

Lemma Sorted_map {A B : Type} (f : A -> B) (R : B -> B -> Prop) (l : list A) :
  Sorted (fun a b => R (f a) (f b)) l -> Sorted R (map f l).
Proof.
  induction 1 as [|a l Hs IH Hh]; simpl; constructor; [assumption|].
  destruct Hh; simpl; now constructor.
Qed.

Lemma Permutation_filter {A : Type} (p : A -> bool) (l l' : list A) :
  Permutation l l' -> Permutation (filter p l) (filter p l').
Proof.
  induction 1 as [|x l l' H IH|x y l|l l' l'' H1 IH1 H2 IH2]; simpl.
  - constructor.
  - destruct (p x); [now constructor|assumption].
  - destruct (p x), (p y); try reflexivity. apply perm_swap.
  - now transitivity (filter p l').
Qed.

Lemma Zleb_total (a b : Z) : (a <=? b) = true \/ (b <=? a) = true.
Proof. rewrite !Z.leb_le. lia. Qed.

(** ** Printing *)

Section Printing.

Lemma for_each_print {A : Type} (g : A -> M unit) (f : A -> string) (l : list A) :
  (forall x, g x = print (f x)) ->
  forall w,
    for_each g l w
    = Return tt (set_stdout (stdout w ++ map (fun x => f x ++ Py.nl) l) w).
Proof.
  intros Hg. induction l as [|x l IH]; intros w; simpl.
  - unfold ret. rewrite List.app_nil_r. now destruct w.
  - rewrite Hg. unfold bind, print at 1, write. rewrite IH. world.
    rewrite <- List.app_assoc. reflexivity.
Qed.

End Printing.

(** ** The low-stock report *)

Section LowStock.

Lemma select_low_stock_perm (d : database) :
  Permutation (select_low_stock d)
              (filter is_low (map stock_columns (tbl_inventory d))).
Proof.
  unfold select_low_stock. fold stock_columns.
  rewrite <- order_by_perm.
  induction (tbl_inventory d) as [|r t IH]; cbn [filter map]; [constructor|].
  change (is_low (stock_columns r))
    with (inventory.qty r <=? inventory.reorder_level r).
  destruct (inventory.qty r <=? inventory.reorder_level r); cbn [map];
    [apply perm_skip|]; exact IH.
Qed.

(** C5.  The low-stock report lists exactly the items whose quantity is at
    most their reorder level, each once per row, by ascending quantity;
    which rows it lists does not depend on the order of the table, that is
    on the order in which the items were inserted. *)
Theorem view_low_stock_report (w : World) :
  let rows := select_low_stock (db_file w) in
  (forall item qty reorder_level,
      In (item, qty, reorder_level) rows <->
      (exists r, In r (tbl_inventory (db_file w)) /\
                 inventory.item r = item /\ inventory.qty r = qty /\
                 inventory.reorder_level r = reorder_level) /\
      qty <= reorder_level) /\
  Permutation rows
    (filter (fun row : string * Z * Z => snd (fst row) <=? snd row)
       (map (fun r => (inventory.item r, inventory.qty r, inventory.reorder_level r))
            (tbl_inventory (db_file w)))) /\
  Sorted (fun a b => snd (fst a) <= snd (fst b)) rows /\
  (forall d',
      Permutation
        (map (fun r => (inventory.item r, inventory.qty r, inventory.reorder_level r))
             (tbl_inventory (db_file w)))
        (map (fun r => (inventory.item r, inventory.qty r, inventory.reorder_level r))
             (tbl_inventory d')) ->
      Permutation rows (select_low_stock d')) /\
  exists w',
    view_low_stock w = Return tt w' /\ db_file w' = db_file w /\
    stdout w'
    = (stdout w ++
       match rows with
       | [] => [("No items at or below reorder level." ++ Py.nl)%string]
       | _ =>
           ("Items needing restock:" ++ Py.nl)%string
             :: map (fun row : string * Z * Z =>
                       ((let '(item, qty, reorder_level) := row in
                         "- " ++ item ++ ": " ++ Py.str qty ++ " (reorder @ "
                           ++ Py.str reorder_level ++ ")") ++ Py.nl)%string) rows
       end)%list.
Proof.
  intros rows. split; [|split; [|split; [|split]]].
  - intros item qty reorder_level. unfold rows.
    rewrite (Permutation_in' eq_refl (select_low_stock_perm (db_file w))) at 1.
    rewrite filter_In, in_map_iff. unfold is_low, stock_columns. simpl.
    rewrite Z.leb_le.
    split.
    + intros [(r & E & Hin) Hle]. inversion E; subst. split; [|assumption].
      exists r. auto.
    + intros [(r & Hin & <- & <- & <-) Hle]. split; [|assumption].
      exists r. auto.
  - exact (select_low_stock_perm (db_file w)).
  - unfold rows, select_low_stock.
    apply Sorted_map with (R := fun a b => snd (fst a) <= snd (fst b)). simpl.
    eapply Sorted_ind with (P := fun l => Sorted _ l);
      [constructor| | apply (order_by_sorted _ (fun a b => Zleb_total _ _))].
    intros a l _ IH Hh. constructor; [exact IH|].
    destruct Hh as [|b l Hb]; constructor. now apply Z.leb_le.
  - intros d' Hp. unfold rows.
    rewrite (select_low_stock_perm (db_file w)), (select_low_stock_perm d').
    now apply Permutation_filter.
  - unfold view_low_stock, bind at 1, with_connect_db, fetch. world.
    fold rows. destruct rows as [|row rows'] eqn:Er.
    + unfold print, write. world. eexists. split; [reflexivity|]. split; reflexivity.
    + unfold bind, print at 1, write. world.
      erewrite (for_each_print _
                 (fun row : string * Z * Z =>
                    let '(item, qty, reorder_level) := row in
                    "- " ++ item ++ ": " ++ Py.str qty ++ " (reorder @ "
                      ++ Py.str reorder_level ++ ")"))
        by (intros [[? ?] ?]; reflexivity).
      world. eexists. split; [reflexivity|]. split; [reflexivity|].
      world. rewrite <- List.app_assoc. reflexivity.
Qed.

End LowStock.

(** ** Deleting an item, and the order history *)

Section History.

Lemma delete_item_run (w : World) (line : string) (rest : list string) :
  stdin w = line :: rest ->
  exists w',
    delete_item w = Return tt w' /\
    db_file w' = fst (Sqlite.delete_item (Py.strip line) (db_file w)).
Proof.
  intros Hin. destruct w as [sin sout clk tk db cn cs ef]. simpl in *. subst sin.
  unfold delete_item. read_line.
  unfold bind at 1, with_connect_db. world.
  unfold Sqlite.delete_item, bind, commit, ret. world.
  destruct (_ =? 0); unfold print, write; world;
    eexists; (split; [reflexivity|]); reflexivity.
Qed.

(** The statement of [delete_item] touches no row of [orders], and the
    deleted name is no longer listed. *)
Lemma delete_item_statement (name : string) (d : database) :
  tbl_orders (fst (Sqlite.delete_item name d)) = tbl_orders d /\
  forall row, In row (select_inventory (fst (Sqlite.delete_item name d))) ->
              fst (fst (fst row)) <> name.
Proof.
  split; [reflexivity|].
  intros row Hin. unfold select_inventory, Sqlite.delete_item in Hin. simpl in Hin.
  apply in_map_iff in Hin. destruct Hin as (r & <- & Hin). simpl.
  apply (Permutation_in _ (Permutation_sym (order_by_perm _ _))) in Hin.
  apply filter_In in Hin. destruct Hin as [_ Hne].
  apply negb_true_iff, String.eqb_neq in Hne. exact Hne.
Qed.

(** The join of [view_orders] keeps an order only with an inventory row
    whose id is the order's [item_id]. *)
Lemma select_orders_joined (d : database)
    (row : Z * string * Z * option string * string) :
  In row (select_orders d) <->
  exists o i,
    In o (tbl_orders d) /\ In i (tbl_inventory d) /\
    orders.item_id o = inventory.id i /\
    row = (orders.id o, inventory.item i, orders.qty o, orders.note o,
           orders.ordered_at o).
Proof.
  unfold select_orders. rewrite in_map_iff. split.
  - intros ([o i] & <- & Hin).
    apply (Permutation_in _ (Permutation_sym (order_by_perm _ _))) in Hin.
    apply in_flat_map in Hin. destruct Hin as (o' & Ho & Hin).
    apply in_map_iff in Hin. destruct Hin as (i' & E & Hi).
    inversion E; subst. apply filter_In in Hi. destruct Hi as [Hi Hid].
    apply Z.eqb_eq in Hid. exists o, i. auto.
  - intros (o & i & Ho & Hi & Hid & ->). exists (o, i). split; [reflexivity|].
    apply (Permutation_in _ (order_by_perm _ _)).
    apply in_flat_map. exists o. split; [assumption|].
    apply in_map. apply filter_In. split; [assumption|]. now apply Z.eqb_eq.
Qed.

Lemma string_leb_total (a b : string) : String.leb a b = true \/ String.leb b a = true.
Proof. apply String.leb_total. Qed.

Lemma string_leb_trans (a b c : string) :
  String.leb a b = true -> String.leb b c = true -> String.leb a c = true.
Proof.
  unfold String.leb. revert b c.
  induction a as [|x a IH]; intros b c Hab Hbc.
  - destruct c; reflexivity.
  - destruct b as [|y b]; [discriminate|].
    destruct c as [|z c]; [discriminate|].
    cbn [String.compare] in *. unfold Ascii.compare in *.
    destruct (N.compare_spec (N_of_ascii x) (N_of_ascii y)) as [Exy|Lxy|Gxy];
      [|clear Hab|discriminate];
      (destruct (N.compare_spec (N_of_ascii y) (N_of_ascii z)) as [Eyz|Lyz|Gyz];
       [|clear Hbc|discriminate]);
      destruct (N.compare_spec (N_of_ascii x) (N_of_ascii z)) as [Exz|Lxz|Gxz];
      try reflexivity; try lia.
    exact (IH b c Hab Hbc).
Qed.

(** The listing is by descending [ordered_at]. *)
Lemma select_orders_sorted (d : database) :
  Sorted (fun a b => String.leb (snd b) (snd a) = true) (select_orders d).
Proof.
  unfold select_orders.
  apply Sorted_map with (R := fun a b => String.leb (snd b) (snd a) = true).
  eapply Sorted_ind with (P := fun l => Sorted _ l);
    [constructor| |
     apply (order_by_sorted
              (fun a b : orders.row * inventory.row =>
                 String.leb (orders.ordered_at (fst b)) (orders.ordered_at (fst a)))
              (fun a b => string_leb_total _ _))].
  intros [o i] l _ IH Hh. constructor; [exact IH|].
  destruct Hh as [|[o' i'] l Hb]; constructor. exact Hb.
Qed.

Lemma filter_id_absent (k : Z) (t : list inventory.row) :
  ~ In k (map inventory.id t) ->
  filter (fun i => k =? inventory.id i) t = [].
Proof.
  induction t as [|j t IH]; simpl; intros H; [reflexivity|].
  destruct (Z.eqb_spec k (inventory.id j)) as [E|_];
    [exfalso; apply H; left; congruence|].
  apply IH. tauto.
Qed.

Lemma filter_id_unique (k : Z) (t : list inventory.row) :
  NoDup (map inventory.id t) -> In k (map inventory.id t) ->
  exists i, filter (fun i => k =? inventory.id i) t = [i].
Proof.
  induction t as [|i t IH]; simpl; intros Hnd Hk; [tauto|].
  inversion Hnd as [|? ? Hi Ht]; subst.
  destruct (Z.eqb_spec k (inventory.id i)) as [E|NE].
  - exists i. subst k. now rewrite (filter_id_absent _ _ Hi).
  - destruct Hk as [Hk|Hk]; [congruence|]. exact (IH Ht Hk).
Qed.

(** Where every order refers to a row of the inventory, the listing has
    one line per order, none twice. *)
Lemma select_orders_complete (d : database) :
  NoDup (map inventory.id (tbl_inventory d)) ->
  (forall o, In o (tbl_orders d) ->
             In (orders.item_id o) (map inventory.id (tbl_inventory d))) ->
  Permutation (map (fun row => (fst (fst (fst (fst row))), snd (fst (fst row)),
                                snd (fst row), snd row))
                   (select_orders d))
              (map (fun o => (orders.id o, orders.qty o, orders.note o,
                              orders.ordered_at o))
                   (tbl_orders d)).
Proof.
  intros Hnd Href. unfold select_orders.
  rewrite map_map. rewrite <- order_by_perm.
  induction (tbl_orders d) as [|o t IH]; simpl; [constructor|].
  rewrite map_app. 
  destruct (filter_id_unique (orders.item_id o) _ Hnd (Href o (or_introl eq_refl)))
    as [i Hi].
rewrite Hi. simpl. apply perm_skip.
  apply IH. intros o' Ho'. apply Href. now right.
Qed.

(** C2 fails on the code.  After an order for an item and the deletion of
    that item, the item is gone from the listing of [view_inventory] and the
    order is still a row of [orders], but [view_orders], whose query joins
    [orders] with [inventory], lists no order at all. *)
Theorem delete_item_hides_history :
  select_inventory (db_file Demo.deleted_widget) = [] /\
  last_output (world_of (view_inventory Demo.deleted_widget))
  = "Inventory is empty." ++ Py.nl /\
  tbl_orders (db_file Demo.deleted_widget)
  = [orders.mk 1 1 3 (Some "rush") "2024-01-01T00:00:00"] /\
  select_orders (db_file Demo.deleted_widget) = [] /\
  last_output Demo.deleted_widget
  = "Deleted Widget. Related order history remains for auditing." ++ Py.nl /\
  last_output (world_of (view_orders Demo.deleted_widget))
  = "No orders recorded." ++ Py.nl.
Proof.
  split; [vm_compute; reflexivity|].
  split; [vm_compute; reflexivity|].
  split; [vm_compute; reflexivity|].
  split; [vm_compute; reflexivity|].
  split; vm_compute; reflexivity.
Qed.

(** C9 fails on the code.  With two orders on record, one of them for an
    item deleted since, [view_orders] lists one order only; and once a new
    item has taken over the rowid of the deleted one, the old order is
    listed under the name of the new item. *)
Theorem view_orders_misses_orders :
  List.length (tbl_orders (db_file Demo.deleted_gadget)) = 2%nat /\
  select_orders (db_file Demo.deleted_gadget)
  = [(1, "Widget", 3, Some "rush", "2024-01-01T00:00:00")] /\
  let w := world_of (add_or_update_item Demo.deleted_gadget) in
  tbl_orders (db_file w) = tbl_orders (db_file Demo.deleted_gadget) /\
  select_orders (db_file w)
  = [(2, "Gizmo", 2, None, "2024-01-01T00:00:01");
     (1, "Widget", 3, Some "rush", "2024-01-01T00:00:00")].
Proof.
  split; [vm_compute; reflexivity|].
  split; [vm_compute; reflexivity|].
  split; vm_compute; reflexivity.
Qed.

End History.

(** ** Searching *)

Section Search.












(** With a pattern that is too long, every scan of a row ends in the
    error. *)
Lemma select_matching_too_complex (p1 p2 : string) (d : database) :
  like_pattern_max < Z.of_nat (String.length p1) ->
  tbl_inventory d <> [] ->
  select_matching p1 p2 d = inl OperationalError.
Proof.
  intros Hl Hne. unfold select_matching.
  destruct (tbl_inventory d) as [|r t]; [congruence|].
  cbn [scan_where]. unfold like at 1.
  now rewrite (proj2 (Z.ltb_lt _ _) Hl).
Qed.

Lemma select_matching_raises (p1 p2 : string) (d : database) (e : exn) :
  select_matching p1 p2 d = inl e -> e = OperationalError.
Proof.
  unfold select_matching.
  destruct (scan_where _ (tbl_inventory d)) as [e0|rows] eqn:Es; [|discriminate].
  intros H; inversion H; subst; clear H.
  induction (tbl_inventory d) as [|r t IH]; cbn [scan_where] in Es; [discriminate|].
  destruct (OR _ _) as [e1|b] eqn:Eo.
  - inversion Es; subst. unfold OR, like in Eo.
    repeat match type of Eo with
           | context [if ?c then _ else _] => destruct c
           end; now inversion Eo.
  - destruct (scan_where _ t) as [e1|u]; [|discriminate].
    inversion Es; subst. now apply IH.
Qed.



(** [LIKE] reads its texts up to a NUL: what follows one in a name is out
    of reach of a search. *)
Lemma like_stops_at_nul :
  like "%b%" (String "a" (String Ascii.zero "b")) = inr false /\
  like "%a%" (String "a" (String Ascii.zero "b")) = inr true.
Proof. split; vm_compute; reflexivity. Qed.

(** The other part that holds: an empty or blank term is turned down
    before a connection to the store is opened. *)
Lemma search_inventory_blank (w : World) (line : string) (rest : list string) :
  stdin w = line :: rest ->
  Py.lower (Py.strip line) = "" ->
  exists w', search_inventory w = Return tt w' /\
             connections w' = connections w /\ db_file w' = db_file w /\
             last_output w' = "Nothing to search." ++ Py.nl.
Proof.
  intros Hin Hb. destruct w as [sin sout clk tk db cn cs ef]. simpl in *. subst sin.
  unfold search_inventory. read_line. rewrite Hb. cbn [Py.truthy negb].
  unfold print, write. world. eexists. split; [reflexivity|]. world.
  repeat split. unfold last_output. world. apply last_last.
Qed.

Lemma substring_chars (s t : string) (c : ascii) :
  substring_of s t ->
  In c (list_ascii_of_string s) -> In c (list_ascii_of_string t).
Proof.
  intros (a & b & ->) Hc.
  induction a as [|x a IH].
  - rewrite append_nil. clear - Hc.
    induction s as [|y s IH]; [destruct Hc|].
    rewrite append_cons. cbn [list_ascii_of_string] in *.
    destruct Hc as [->|Hc]; [now left|right; auto].
  - rewrite append_cons. cbn [list_ascii_of_string]. right. exact IH.
Qed.

(** C7 fails on the code.  The term is pasted into the LIKE pattern as it
    is, so a term made of the wildcard [_] selects every item with a
    non-empty name, although no name and no category contains an
    underscore. *)
Theorem search_inventory_wildcard :
  Forall (fun r => ~ substring_of "_" (Py.lower (inventory.item r)) /\
                   ~ substring_of "_" (Py.lower (inventory.category r)))
         (tbl_inventory Demo.parts) /\
  select_matching "%_%" "%_%" Demo.parts
  = inr [("Bolt", "Parts", 9, 2); ("Nut", "Parts", 4, 2)] /\
  stdout (world_of (search_inventory (boot ["_"] Demo.clk Demo.parts)))
  = ["Search term: ";
     "Bolt (Parts) - 9 units (reorder @ 2)" ++ Py.nl;
     "Nut (Parts) - 4 units (reorder @ 2)" ++ Py.nl].
Proof.
  split.
  - repeat constructor; intros H;
      apply (substring_chars _ _ "_"%char) in H; try (now left);
      vm_compute in H; intuition discriminate.
  - split; vm_compute; reflexivity.
Qed.

End Search.

(** ** The summary *)

Section Summary.

Lemma total_nonneg (l : list Z) : Forall (fun x => 0 <= x) l -> 0 <= total l.
Proof. induction 1; simpl; lia. Qed.

Lemma sum_from_ok (l : list Z) :
  Forall (fun x => 0 <= x) l ->
  forall acc, 0 <= acc -> acc + total l < 2 ^ 63 ->
              sum_from acc l = inr (acc + total l).
Proof.
  induction 1 as [|x l Hx Hl IH]; intros acc Ha Hb; simpl in *.
  - now rewrite Z.add_0_r.
  - pose proof (total_nonneg l Hl).
    rewrite (proj2 (fits_int64_iff (acc + x))) by lia.
    rewrite IH by lia. f_equal. lia.
Qed.

Lemma SUM_ok (l : list Z) :
  Forall (fun x => 0 <= x) l -> total l < 2 ^ 63 ->
  exists s, SUM l = inr s /\ COALESCE s 0 = total l.
Proof.
  intros Hl Hb. destruct l as [|x l]; simpl.
  - now exists None.
  - inversion Hl; subst. simpl in Hb.
    rewrite sum_from_ok by assumption. now exists (Some (x + total l)).
Qed.

Lemma qty_nonneg (t : list inventory.row) :
  Forall (fun r => 0 <= inventory.qty r) t ->
  Forall (fun x => 0 <= x) (map inventory.qty t).
Proof. induction 1; simpl; constructor; auto. Qed.

Lemma total_in_category (c : string) (t : list inventory.row) :
  Forall (fun r => 0 <= inventory.qty r) t ->
  Forall (fun r => 0 <= inventory.qty r) (in_category c t) /\
  total (map inventory.qty (in_category c t)) <= total (map inventory.qty t).
Proof.
  unfold in_category. induction 1 as [|r t Hr Ht [IH1 IH2]]; simpl.
  - split; [constructor|lia].
  - destruct (inventory.category r =? c)%string; simpl.
    + split; [now constructor|lia].
    + split; [assumption|lia].
Qed.

Lemma aggregate_ok (t : list inventory.row) (cs : list string) :
  Forall (fun r => 0 <= inventory.qty r) t ->
  total (map inventory.qty t) < 2 ^ 63 ->
  aggregate (map (fun c => (c, in_category c t)) cs)
  = inr (map (fun c => (c, Z.of_nat (List.length (in_category c t)),
                        total (map inventory.qty (in_category c t)))) cs).
Proof.
  intros Hnn Hb. induction cs as [|c cs IH]; simpl; [reflexivity|].
  destruct (total_in_category c t Hnn) as [H1 H2].
  destruct (SUM_ok (map inventory.qty (in_category c t))) as (s & -> & Hs);
    [now apply qty_nonneg | lia |].
  rewrite IH, Hs. reflexivity.
Qed.

(** C8, amended.  Where the quantities add up to less than 2^63,
    [inventory_summary] reports the number of items and the sum of their
    quantities (0 and 0 for the empty inventory) and, for each category
    that occurs, once, the number of its items and the sum of their
    quantities, the categories by descending sum and, among those with
    equal sums, by descending name. *)
Theorem inventory_summary_report (w : World) :
  no_negative_qty (db_file w) ->
  total (map inventory.qty (tbl_inventory (db_file w))) < 2 ^ 63 ->
  let t := tbl_inventory (db_file w) in
  exists per,
    select_totals (db_file w)
    = inr (Z.of_nat (List.length t), total (map inventory.qty t)) /\
    (t = [] -> select_totals (db_file w) = inr (0, 0)) /\
    select_per_category (db_file w) = inr per /\
    (forall c n s,
        In (c, n, s) per <->
        In c (map inventory.category t) /\
        n = Z.of_nat (List.length (in_category c t)) /\
        s = total (map inventory.qty (in_category c t))) /\
    NoDup (map (fun row : string * Z * Z => fst (fst row)) per) /\
    Sorted (fun a b : string * Z * Z => snd b <= snd a) per /\
    StronglySorted
      (fun a b : string * Z * Z =>
         snd b <= snd a /\
         (snd a = snd b -> String.leb (fst (fst b)) (fst (fst a)) = true)) per /\
    exists w',
      inventory_summary w = Return tt w' /\ db_file w' = db_file w /\
      stdout w'
      = (stdout w ++
         [("=== Snapshot ===" ++ Py.nl)%string;
          (("Items tracked: " ++ Py.str (Z.of_nat (List.length t))) ++ Py.nl)%string;
          (("Units on hand: " ++ Py.str (total (map inventory.qty t))) ++ Py.nl)%string]
         ++ match per with
            | [] => [("No category data yet." ++ Py.nl)%string]
            | _ =>
                ("Per category:" ++ Py.nl)%string
                  :: map (fun row : string * Z * Z =>
                            ((let '(category, items, qty) := row in
                              "- " ++ category ++ ": " ++ Py.str qty
                                ++ " units across " ++ Py.str items ++ " items")
                               ++ Py.nl)%string) per
            end)%list.
Proof.
  intros Hnn Hb t.
  set (cs := order_by (fun a b => String.leb b a)
                      (nodup string_dec (map inventory.category t))).
  set (rows := map (fun c => (c, Z.of_nat (List.length (in_category c t)),
                              total (map inventory.qty (in_category c t)))) cs).
  set (desc := fun a b : string * Z * Z => snd b <=? snd a).
  assert (Htot : select_totals (db_file w)
                 = inr (Z.of_nat (List.length t), total (map inventory.qty t))).
  { unfold select_totals. fold t.
    destruct (SUM_ok (map inventory.qty t)) as (s & -> & Hs);
      [now apply qty_nonneg | assumption |].
    now rewrite Hs. }
  assert (Hper : select_per_category (db_file w) = inr (order_by desc rows)).
  { unfold select_per_category, groups. fold t. fold cs.
    change (map (fun c => (c, filter (fun r => (inventory.category r =? c)%string) t)) cs)
      with (map (fun c => (c, in_category c t)) cs).
    now rewrite (aggregate_ok t cs Hnn Hb). }
  exists (order_by desc rows).
  split; [exact Htot|]. split; [intros E; rewrite Htot, E; reflexivity|].
  split; [exact Hper|]. split; [|split; [|split; [|split]]].
  - intros c n s. rewrite order_by_In. unfold rows. rewrite in_map_iff. split.
    + intros (c' & E & Hin). inversion E; subst. split; [|split; reflexivity].
      unfold cs in Hin. rewrite order_by_In in Hin. now apply nodup_In in Hin.
    + intros (Hin & -> & ->). exists c. split; [reflexivity|].
      unfold cs. rewrite order_by_In. now apply nodup_In.
  - apply (Permutation_NoDup
             (l := map (fun row : string * Z * Z => fst (fst row)) rows)).
    + apply Permutation_map. apply order_by_perm.
    + unfold rows. rewrite map_map. simpl. rewrite map_id.
      apply (Permutation_NoDup (order_by_perm _ _)). apply NoDup_nodup.
  - eapply Sorted_ind with (P := fun l => Sorted _ l);
      [constructor| |
       apply (order_by_sorted desc (fun a b => Zleb_total (snd b) (snd a)))].
    intros a l _ IH Hh. constructor; [exact IH|].
    destruct Hh as [|b l Hb']; constructor. now apply Z.leb_le.
  - assert (Hcs : StronglySorted (fun a b => String.leb b a = true) cs).
    { apply Sorted_StronglySorted.
      - intros a b c Hab Hbc. exact (string_leb_trans _ _ _ Hbc Hab).
      - apply (order_by_sorted (fun a b => String.leb b a)
                 (fun a b => string_leb_total b a)). }
    assert (Hrows : StronglySorted
                      (fun a b : string * Z * Z =>
                         String.leb (fst (fst b)) (fst (fst a)) = true) rows).
    { unfold rows. clear - Hcs. induction Hcs as [|c cs Hs IH Hc]; cbn [map];
        constructor; [exact IH|].
      apply Forall_forall. intros row Hrow. apply in_map_iff in Hrow.
      destruct Hrow as (c' & <- & Hc'). cbn.
      exact (proj1 (Forall_forall _ _) Hc c' Hc'). }
    pose proof (order_by_stable desc (fun a b => Zleb_total (snd b) (snd a))
                  (fun a b : string * Z * Z =>
                     String.leb (fst (fst b)) (fst (fst a)) = true) rows) as St.
    eapply StronglySorted_ind with (P := fun l => StronglySorted _ l);
      [constructor| |apply St; [|exact Hrows]].
    + intros a l _ IH Ha. constructor; [exact IH|].
      apply Forall_forall. intros b Hin.
      destruct (proj1 (Forall_forall _ _) Ha b Hin) as [H1 H2].
      unfold desc in H1, H2. split; [now apply Z.leb_le|].
      intros E. apply H2. apply Z.leb_le. lia.
    + intros a b c Hab Hbc. unfold desc in *.
      apply Z.leb_le in Hab, Hbc. apply Z.leb_le. lia.
  - unfold inventory_summary, bind at 1, with_connect_db. world.
    unfold bind at 1, fetch_checked at 1. world. rewrite Htot.
    unfold bind at 1, fetch_checked. world. rewrite Hper. unfold ret. world.
    unfold bind at 1, print at 1, write. world.
    unfold bind at 1, print at 1, write. world.
    unfold bind at 1, print at 1, write. world.
    destruct (order_by desc rows) as [|row per'] eqn:Er.
    + unfold print, write. world. eexists. split; [reflexivity|].
      split; [reflexivity|]. world. rewrite <- !List.app_assoc. reflexivity.
    + unfold bind, print at 1, write. world.
      erewrite (for_each_print _
                  (fun row : string * Z * Z =>
                     let '(category, items, qty) := row in
                     "- " ++ category ++ ": " ++ Py.str qty
                       ++ " units across " ++ Py.str items ++ " items"))
        by (intros [[? ?] ?]; reflexivity).
      world. eexists. split; [reflexivity|]. split; [reflexivity|].
      world. rewrite <- !List.app_assoc. reflexivity.
Qed.

Lemma inventory_summary_report_witness :
  exists w',
    inventory_summary (boot [] Demo.clk Demo.tied) = Return tt w' /\
    stdout w'
    = [("=== Snapshot ===" ++ Py.nl)%string;
       ("Items tracked: 5" ++ Py.nl)%string;
       ("Units on hand: 14" ++ Py.nl)%string;
       ("Per category:" ++ Py.nl)%string;
       ("- C: 5 units across 2 items" ++ Py.nl)%string;
       ("- A: 5 units across 1 items" ++ Py.nl)%string;
       ("- D: 2 units across 1 items" ++ Py.nl)%string;
       ("- B: 2 units across 1 items" ++ Py.nl)%string].
Proof.
  destruct (inventory_summary_report (boot [] Demo.clk Demo.tied))
    as (per & _ & _ & Hp & _ & _ & _ & _ & w' & R & _ & O).
  - repeat constructor; simpl; lia.
  - vm_compute. reflexivity.
  - exists w'. split; [exact R|].
    assert (E : per = [("C", 2, 5); ("A", 1, 5); ("D", 1, 2); ("B", 1, 2)]).
    { assert (H : select_per_category (db_file (boot [] Demo.clk Demo.tied))
                  = inr [("C", 2, 5); ("A", 1, 5); ("D", 1, 2); ("B", 1, 2)])
        by (vm_compute; reflexivity).
      rewrite Hp in H. now inversion H. }
    rewrite O, E. vm_compute. reflexivity.
Defined.

Lemma heavy_valid : valid Demo.heavy.
Proof. prove_valid. Qed.

(** C8 as stated fails in a state the schema allows: where the quantities
    add up to 2^63 or more, [SUM] overflows and [inventory_summary] ends
    with an exception, having reported nothing. *)
Lemma inventory_summary_overflow :
  valid Demo.heavy /\
  (exists w',
     inventory_summary (boot [] Demo.clk Demo.heavy) = Raise OperationalError w' /\
     stdout w' = []) /\
  forall w', inventory_summary (boot [] Demo.clk Demo.heavy) <> Return tt w'.
Proof.
  split; [exact heavy_valid|]. split.
  - eexists. split; vm_compute; reflexivity.
  - intros w'. vm_compute. discriminate.
Qed.

End Summary.

(** ** The export *)

Section CsvRoundTrip.

Import Csv.

Lemma append_assoc (a b c : string) : (a ++ b) ++ c = a ++ (b ++ c).
Proof.
  induction a as [|x a IH]; [reflexivity|].
  rewrite !append_cons. now rewrite IH.
Qed.

Lemma append_nil_r (a : string) : a ++ "" = a.
Proof.
  induction a as [|x a IH]; [reflexivity|]. rewrite append_cons. now rewrite IH.
Qed.

Lemma special_false (c : ascii) :
  special c = false ->
  Ascii.eqb c delimiter = false /\ Ascii.eqb c quotechar = false /\
  is_newline c = false /\ Ascii.eqb c LF = false.
Proof.
  unfold special, is_newline. rewrite !orb_false_iff. tauto.
Qed.

(** Reading the characters of a field that was written without quotes. *)
Lemma read_unquoted (f : string) :
  needs_quoting f = false ->
  forall acc rec k,
    read_from IN_FIELD acc rec (f ++ k) = read_from IN_FIELD (acc ++ f) rec k.
Proof.
  induction f as [|c f IH]; intros Hq acc rec k.
  - now rewrite append_nil, append_nil_r.
  - cbn [needs_quoting] in Hq. apply orb_false_iff in Hq. destruct Hq as [Hc Hf].
    destruct (special_false c Hc) as (Hd & _ & Hn & _).
    rewrite append_cons. cbn [read_from]. rewrite Hn, Hd.
    rewrite (IH Hf). unfold add_char. rewrite append_assoc. reflexivity.
Qed.

(** Reading the characters of a quoted field, up to its closing quote. *)
Lemma read_quoted (f : string) :
  forall acc rec k,
    read_from IN_QUOTED_FIELD acc rec (escape f ++ String quotechar k)
    = read_from QUOTE_IN_QUOTED_FIELD (acc ++ f) rec k.
Proof.
  induction f as [|c f IH]; intros acc rec k.
  - rewrite append_nil_r. reflexivity.
  - cbn [escape]. destruct (Ascii.eqb c quotechar) eqn:Ec.
    + rewrite !append_cons. cbn [read_from]. rewrite Ec.
      rewrite (IH (add_char acc c)). unfold add_char. now rewrite append_assoc.
    + rewrite append_cons. cbn [read_from]. rewrite Ec.
      rewrite (IH (add_char acc c)). unfold add_char. now rewrite append_assoc.
Qed.

(** A written field followed by the delimiter: the field is saved and the
    next one expected. *)
Lemma read_field_delimiter (f : string) (rec : list string) (k : string) :
  read_from START_FIELD "" rec (write_field f ++ String delimiter k)
  = read_from START_FIELD "" (rec ++ [f]) k.
Proof.
  unfold write_field. destruct (needs_quoting f) eqn:Hq.
  - rewrite append_cons. cbn [read_from].
    change (is_newline quotechar) with false.
    change (Ascii.eqb quotechar quotechar) with true. cbv iota.
    rewrite append_assoc, append_cons, append_nil, read_quoted, append_nil.
    reflexivity.
  - destruct f as [|c f].
    + rewrite append_nil. reflexivity.
    + cbn [needs_quoting] in Hq. apply orb_false_iff in Hq. destruct Hq as [Hc Hf].
      destruct (special_false c Hc) as (Hd & Hqc & Hn & _).
      rewrite append_cons. cbn [read_from]. rewrite Hn, Hqc, Hd.
      rewrite (read_unquoted f Hf). cbn [read_from].
      change (is_newline delimiter) with false.
      change (Ascii.eqb delimiter delimiter) with true. reflexivity.
Qed.

(** A written field followed by the line terminator: the record is
    complete. *)
Lemma read_field_terminator (f : string) (rec : list string) (k : string) :
  read_from START_FIELD "" rec (write_field f ++ lineterminator ++ k)
  = (rec ++ [f])%list :: read_from START_RECORD "" [] k.
Proof.
  unfold write_field, lineterminator. destruct (needs_quoting f) eqn:Hq.
  - rewrite append_cons. cbn [read_from].
    change (is_newline quotechar) with false.
    change (Ascii.eqb quotechar quotechar) with true. cbv iota.
    rewrite append_assoc, append_cons, append_nil, read_quoted, append_nil.
    reflexivity.
  - destruct f as [|c f].
    + rewrite append_nil. reflexivity.
    + cbn [needs_quoting] in Hq. apply orb_false_iff in Hq. destruct Hq as [Hc Hf].
      destruct (special_false c Hc) as (Hd & Hqc & Hn & _).
      rewrite append_cons. cbn [read_from]. rewrite Hn, Hqc, Hd.
      rewrite (read_unquoted f Hf). reflexivity.
Qed.

Lemma read_fields (fs : list string) :
  fs <> [] ->
  forall rec k,
    read_from START_FIELD "" rec
      (String.concat (String delimiter "") (map write_field fs)
         ++ lineterminator ++ k)
    = (rec ++ fs)%list :: read_from START_RECORD "" [] k.
Proof.
  induction fs as [|f fs IH]; intros Hne rec k; [congruence|].
  destruct fs as [|f2 fs].
  - cbn [map String.concat]. apply read_field_terminator.
  - cbn [map String.concat]. cbn [map] in IH.
    rewrite !append_assoc, append_cons, append_nil.
    rewrite read_field_delimiter, IH by discriminate.
    now rewrite <- List.app_assoc.
Qed.

Lemma write_field_head (f k : string) :
  f = "" \/ exists c r, write_field f ++ k = String c r /\ is_newline c = false.
Proof.
  unfold write_field. destruct (needs_quoting f) eqn:Hq.
  - right. rewrite append_cons. eauto.
  - destruct f as [|c f]; [now left|right].
    cbn [needs_quoting] in Hq. apply orb_false_iff in Hq. destruct Hq as [Hc _].
    rewrite append_cons. destruct (special_false c Hc) as (_ & _ & ? & _). eauto.
Qed.

(** At the start of a record, a first field that is written with at least
    one character, or followed by a delimiter, is read as any other. *)
Lemma read_record_start (f : string) (fs : list string) (k : string) :
  f :: fs <> [""] ->
  read_from START_RECORD "" []
    (String.concat (String delimiter "") (map write_field (f :: fs))
       ++ lineterminator ++ k)
  = read_from START_FIELD "" []
      (String.concat (String delimiter "") (map write_field (f :: fs))
         ++ lineterminator ++ k).
Proof.
  intros Hne.
  assert (Hstart : forall c r, is_newline c = false ->
             read_from START_RECORD "" [] (String c r)
             = read_from START_FIELD "" [] (String c r)).
  { intros c r Hn. cbn [read_from]. now rewrite Hn. }
  destruct fs as [|f2 fs].
  - cbn [map String.concat].
    destruct (write_field_head f (lineterminator ++ k)) as [->|(c & r & -> & Hn)];
      [congruence|now apply Hstart].
  - change (String.concat (String delimiter "") (map write_field (f :: f2 :: fs)))
      with (write_field f ++ String delimiter ""
              ++ String.concat (String delimiter "") (map write_field (f2 :: fs))).
    generalize (String.concat (String delimiter "") (map write_field (f2 :: fs))).
    intros T. rewrite append_assoc.
    destruct (write_field_head f ((String delimiter "" ++ T) ++ lineterminator ++ k))
      as [->|(c & r & -> & Hn)]; [|now apply Hstart].
    change (write_field "") with "". rewrite append_nil, append_assoc, append_cons.
    now apply Hstart.
Qed.

Lemma read_writerow (row : list string) (k : string) :
  row <> [""] ->
  read_from START_RECORD "" [] (writerow row ++ k)
  = row :: read_from START_RECORD "" [] k.
Proof.
  intros Hne. unfold writerow. rewrite append_assoc.
  destruct row as [|f fs].
  - reflexivity.
  - rewrite (read_record_start f fs k Hne). now rewrite read_fields.
Qed.

Lemma writerows_cons (row : list string) (rows : list (list string)) :
  writerows (row :: rows) = writerow row ++ writerows rows.
Proof.
  unfold writerows. destruct rows as [|row2 rows]; cbn [map String.concat].
  - now rewrite append_nil_r.
  - now rewrite append_nil.
Qed.

(** What [csv.writer] writes, [csv.reader] reads back: the same rows with
    the same fields. *)
Lemma reader_writerows (rows : list (list string)) :
  Forall (fun row => row <> [""]) rows ->
  reader (writerows rows) = rows.
Proof.
  unfold reader.
  induction 1 as [|row rows Hrow _ IH]; [reflexivity|].
  rewrite writerows_cons, read_writerow by assumption. now rewrite IH.
Qed.

End CsvRoundTrip.

(** ** Decimal text of integers *)

Section DecimalText.

Import NilEmpty.

Lemma digits_double (d : Decimal.uint) :
  (Decimal.nb_digits (Decimal.Little.double d) <= S (Decimal.nb_digits d)
   /\ Decimal.nb_digits (Decimal.Little.succ_double d) <= S (Decimal.nb_digits d))%nat.
Proof.
  induction d as [|d [IH1 IH2]|d [IH1 IH2]|d [IH1 IH2]|d [IH1 IH2]|d [IH1 IH2]
                 |d [IH1 IH2]|d [IH1 IH2]|d [IH1 IH2]|d [IH1 IH2]|d [IH1 IH2]];
    simpl; split; lia.
Qed.

Lemma digits_to_uint (p : positive) :
  (Decimal.nb_digits (Pos.to_uint p) <= Pos.size_nat p)%nat.
Proof.
  unfold Pos.to_uint. rewrite nb_digits_rev.
  induction p as [p IH|p IH|]; simpl.
  - pose proof (proj2 (digits_double (Pos.to_little_uint p))). lia.
  - pose proof (proj1 (digits_double (Pos.to_little_uint p))). lia.
  - lia.
Qed.

Lemma count_digits_uint (u : Decimal.uint) :
  Py.count_digits (string_of_uint u) = Decimal.nb_digits u.
Proof. induction u; simpl; congruence. Qed.

Lemma rstrip_uint (u : Decimal.uint) :
  Py.int_rstrip (string_of_uint u) = string_of_uint u.
Proof.
  induction u; simpl; try reflexivity; rewrite IHu;
    destruct (string_of_uint u); reflexivity.
Qed.

Ltac digit_step :=
  cbn [Py.int_digits];
  match goal with
  | |- context [Ascii.eqb ?c "_"] =>
      let b := eval vm_compute in (Ascii.eqb c "_") in
      change (Ascii.eqb c "_") with b
  end;
  match goal with
  | |- context [Py.digit_of ?c] =>
      let v := eval vm_compute in (Py.digit_of c) in
      change (Py.digit_of c) with v
  end;
  cbv iota.

Lemma int_digits_acc (u : Decimal.uint) :
  forall acc, Py.int_digits (Z.pos acc) (string_of_uint u)
              = Some (Z.pos (Pos.of_uint_acc u acc)).
Proof.
  induction u; intros acc; cbn [string_of_uint Pos.of_uint_acc]; try reflexivity;
    digit_step; rewrite <- IHu; f_equal; lia.
Qed.

Lemma int_digits_zero (u : Decimal.uint) :
  Py.int_digits 0 (string_of_uint u) = Some (Z.of_N (Pos.of_uint u)).
Proof.
  induction u; cbn [string_of_uint Pos.of_uint]; try reflexivity;
    digit_step; first [exact IHu | apply int_digits_acc].
Qed.

Lemma int_unsigned_uint (u : Decimal.uint) :
  u <> Decimal.Nil ->
  Py.int_unsigned (string_of_uint u) = Some (Z.of_N (Pos.of_uint u)).
Proof.
  destruct u; intros H; try congruence; cbn [string_of_uint Pos.of_uint];
    unfold Py.int_unsigned;
    match goal with
    | |- context [Py.digit_of ?c] =>
        let v := eval vm_compute in (Py.digit_of c) in
        change (Py.digit_of c) with v
    end; cbv iota;
    first [apply int_digits_zero | apply int_digits_acc].
Qed.

(** [int] and [str.strip] part ways on the separators 0x1c-0x1f: a line
    that [strip] would clean is no number for [int]. *)
Lemma int_separators :
  Py.int (" 7" ++ Py.nl) = Some 7 /\
  Py.int (String (ascii_of_nat 28) "7") = None /\
  Py.strip (String (ascii_of_nat 28) "7") = "7".
Proof. repeat split; vm_compute; reflexivity. Qed.

(** So a quantity typed after such a separator is turned down by
    [prompt_int] like any other line that is no number: here the note is
    read as the next answer, and the input ends. *)
Lemma place_order_separator :
  exists w',
    place_order (boot ["Widget"; String (ascii_of_nat 28) "3"; "rush"]
                      Demo.clk Demo.widget5)
    = Raise EOFError w' /\
    db_file w' = Demo.widget5.
Proof. eexists. split; vm_compute; reflexivity. Qed.

(** [int] reads back what [str] wrote of a stored quantity. *)
Lemma int_str (z : Z) : 0 <= z < 2 ^ 63 -> Py.int (Py.str z) = Some z.
Proof.
  intros [Hz Hb]. destruct z as [|p|p]; [reflexivity| |lia].
  unfold Py.str, Py.int. cbn [Z.to_int string_of_int].
  pose proof (DecimalPos.Unsigned.to_uint_nonnil p) as Hnn.
  assert (Hl : Py.int_lstrip (string_of_uint (Pos.to_uint p))
               = string_of_uint (Pos.to_uint p)).
  { destruct (Pos.to_uint p); try congruence; reflexivity. }
  rewrite Hl, rstrip_uint, count_digits_uint.
  assert (Hn : (Py.int_max_str_digits <? Decimal.nb_digits (Pos.to_uint p))%nat = false).
  { apply Nat.ltb_ge. pose proof (digits_to_uint p) as Hd.
    assert (Hs : (Pos.size_nat p <= 64)%nat).
    { change 64%nat with (Pos.size_nat (2 ^ 63)).
      apply Pos.size_nat_monotone. lia. }
    apply Nat.le_trans with 64%nat; [lia|].
    apply Nat.leb_le. vm_compute. reflexivity. }
  rewrite Hn.
  transitivity (Py.int_unsigned (string_of_uint (Pos.to_uint p))).
  - destruct (Pos.to_uint p); try congruence; reflexivity.
  - rewrite int_unsigned_uint by assumption.
    now rewrite DecimalPos.Unsigned.of_to.
Qed.

End DecimalText.

Section Exporting.

Lemma select_inventory_perm (d : database) :
  Permutation (select_inventory d) (map columns (tbl_inventory d)).
Proof.
  unfold select_inventory. fold columns. apply Permutation_map.
  symmetry. apply order_by_perm.
Qed.

Lemma select_inventory_sorted (d : database) :
  Sorted (fun a b => String.leb (fst (fst (fst a))) (fst (fst (fst b))) = true)
         (select_inventory d).
Proof.
  unfold select_inventory.
  apply Sorted_map
    with (R := fun a b => String.leb (fst (fst (fst a))) (fst (fst (fst b))) = true).
  apply (order_by_sorted
           (fun a b => String.leb (inventory.item a) (inventory.item b))
           (fun a b => string_leb_total _ _)).
Qed.

Lemma select_inventory_nil (d : database) :
  select_inventory d = [] <-> tbl_inventory d = [].
Proof.
  split; intros H.
  - pose proof (Permutation_length (select_inventory_perm d)) as Hl.
    rewrite H, length_map in Hl. now destruct (tbl_inventory d).
  - apply Permutation_nil. rewrite (select_inventory_perm d), H. constructor.
Qed.

Lemma read_tuple_fields (d : database) (row : string * string * Z * Z) :
  valid d -> In row (select_inventory d) ->
  read_tuple (csv_fields row) = Some row.
Proof.
  intros V Hin.
  apply (Permutation_in _ (select_inventory_perm d)) in Hin.
  apply in_map_iff in Hin. destruct Hin as (r & <- & Hr).
  pose proof (proj1 (Forall_forall _ _) (stored d V) r Hr) as Hs.
  pose proof (proj1 (Forall_forall _ _) (checks d V) r Hr) as Hc.
  cbv beta in Hc. simpl in Hs. rewrite !andb_true_iff, !fits_int64_iff in Hs.
  unfold columns, csv_fields, read_tuple.
  rewrite !int_str by lia. reflexivity.
Qed.

(** C6.  With at least one item, [export_inventory] writes the header row
    [item,category,qty,reorder_level] and then one row per item, in
    ascending order of the names, each the item's four fields separated by
    commas; reading the file back gives the header and the fields of every
    row, and from them exactly the tuples of the item listing.  With no
    item, it writes nothing and reports that there is nothing to export. *)
Theorem export_inventory_round_trip (w : World) :
  valid (db_file w) ->
  let rows := select_inventory (db_file w) in
  (tbl_inventory (db_file w) <> [] ->
     exists w' text,
       export_inventory w = Return tt w' /\
       export_file w' = Some text /\
       text = ("item,category,qty,reorder_level" ++ Csv.lineterminator)
                ++ Csv.writerows (map csv_fields rows) /\
       Sorted (fun a b => String.leb (fst (fst (fst a))) (fst (fst (fst b))) = true)
              rows /\
       Permutation rows
         (map (fun r => (inventory.item r, inventory.category r, inventory.qty r,
                         inventory.reorder_level r))
              (tbl_inventory (db_file w))) /\
       Csv.reader text = csv_header :: map csv_fields rows /\
       map read_tuple (tl (Csv.reader text)) = map Some rows) /\
  (tbl_inventory (db_file w) = [] ->
     exists w',
       export_inventory w = Return tt w' /\
       export_file w' = export_file w /\
       last_output w' = "Inventory empty, nothing to export." ++ Py.nl).
Proof.
  intros V rows. split.
  - intros Hne.
    assert (Hrows : rows <> []) by (unfold rows; now rewrite select_inventory_nil).
    assert (Hread : Csv.reader (Csv.writerow csv_header
                                  ++ Csv.writerows (map csv_fields rows))
                    = csv_header :: map csv_fields rows).
    { unfold Csv.reader. rewrite read_writerow by discriminate.
      f_equal. apply reader_writerows.
      apply Forall_forall. intros fs Hfs. apply in_map_iff in Hfs.
      destruct Hfs as ([[[i c] q] r] & <- & _). discriminate. }
    unfold export_inventory, bind at 1, with_connect_db, fetch. world.
    fold rows. destruct rows as [|row rows'] eqn:Er; [congruence|].
    rewrite <- Er in *.
    unfold bind, print, write. world.
    eexists. exists (Csv.writerow csv_header ++ Csv.writerows (map csv_fields rows)).
    split; [reflexivity|]. world.
    split; [reflexivity|]. split; [reflexivity|].
    split; [apply select_inventory_sorted|].
    split; [apply select_inventory_perm|].
    split; [exact Hread|].
    rewrite Hread. cbn [tl]. rewrite map_map.
    apply map_ext_in. intros r Hr. now apply (read_tuple_fields (db_file w)).
  - intros He. apply select_inventory_nil in He.
    unfold export_inventory, bind at 1, with_connect_db, fetch. world.
    rewrite He. unfold print, write. world.
    eexists. split; [reflexivity|]. world. split; [reflexivity|].
    unfold last_output. world. apply last_last.
Qed.

Lemma export_inventory_round_trip_witness :
  exists w' text,
    export_inventory (boot [] Demo.clk Demo.parts) = Return tt w' /\
    export_file w' = Some text /\
    Csv.reader text = [["item"; "category"; "qty"; "reorder_level"];
                       ["Bolt"; "Parts"; "9"; "2"];
                       ["Nut"; "Parts"; "4"; "2"]] /\
    map read_tuple (tl (Csv.reader text))
    = [Some ("Bolt", "Parts", 9, 2); Some ("Nut", "Parts", 4, 2)].
Proof.
  destruct (export_inventory_round_trip (boot [] Demo.clk Demo.parts) parts_valid)
    as [Hfull _].
  destruct (Hfull ltac:(discriminate))
    as (w' & text & Hrun & Hfile & _ & _ & _ & Hread & Htuples).
  exists w', text. split; [exact Hrun|]. split; [exact Hfile|].
  split; [exact Hread|exact Htuples].
Defined.

End Exporting.

(** * Further properties *)

(** ** Keeping an invariant *)

Section Keeping.

Context {I : World -> Prop}.

Lemma keeps_ret {A : Type} (a : A) : keeps I (ret a).
Proof. intros w H. exact H. Qed.

Lemma keeps_raise {A : Type} (e : exn) : keeps I (@raise A e).
Proof. intros w H. exact H. Qed.

Lemma keeps_bind {A B : Type} (c : M A) (k : A -> M B) :
  keeps I c -> (forall a, keeps I (k a)) -> keeps I (bind c k).
Proof.
  intros Hc Hk w H. unfold bind. specialize (Hc w H).
  destruct (c w) as [a w'|e w']; cbn [world_of] in *; [now apply Hk|exact Hc].
Qed.

Lemma keeps_fetch {A : Type} (q : database -> A) : keeps I (fetch q).
Proof. intros w H. exact H. Qed.

Lemma keeps_fetch_checked {A : Type} (q : database -> exn + A) :
  keeps I (fetch_checked q).
Proof. intros w H. unfold fetch_checked. now destruct (q (conn w)). Qed.

Lemma keeps_for_each {A : Type} (f : A -> M unit) (l : list A) :
  (forall x, keeps I (f x)) -> keeps I (for_each f l).
Proof.
  intros Hf. induction l as [|x l IH]; cbn [for_each].
  - apply keeps_ret.
  - apply keeps_bind; [apply Hf|intros _; exact IH].
Qed.

Hypothesis C : console_closed I.

Lemma keeps_write (s : string) : keeps I (write s).
Proof. intros w H. apply (closed_write I C). exact H. Qed.

Lemma keeps_print (s : string) : keeps I (print s).
Proof. apply keeps_write. Qed.

Lemma keeps_input (message : string) : keeps I (input message).
Proof.
  intros w H. unfold input, bind, write. cbv beta iota.
  pose proof (closed_write I C w (stdout w ++ [message])%list H) as H1.
  destruct (stdin (set_stdout (stdout w ++ [message]) w)) as [|l r] eqn:E;
    cbn [world_of]; [exact H1|].
  now apply (closed_read I C _ l r).
Qed.

Lemma keeps_utcnow : keeps I utcnow_isoformat.
Proof. intros w H. apply (closed_tick I C). exact H. Qed.

Lemma keeps_export (f : option string) :
  keeps I (fun w => Return tt (set_export_file f w)).
Proof. intros w H. apply (closed_export I C). exact H. Qed.

(** [prompt_int] keeps the invariant, and what it returns is at least the
    minimum. *)
Lemma prompt_int_loop_keeps (message : string) (minimum : Z) (lines : list string) :
  forall w, I w ->
    match prompt_int_loop message minimum lines w with
    | Return v w' => minimum <= v /\ I w'
    | Raise _ w' => I w'
    end.
Proof.
  induction lines as [|l lines IH]; intros w H; cbn [prompt_int_loop].
  - unfold bind. pose proof (keeps_input message w H) as Hi.
    destruct (input message w); exact Hi.
  - unfold bind at 1. pose proof (keeps_input message w H) as Hi.
    destruct (input message w) as [line w1|e w1]; cbn [world_of] in Hi; [|exact Hi].
    destruct (Py.int line) as [v|].
    + destruct (Z.ltb_spec v minimum) as [Hlt|Hge].
      * unfold bind. pose proof (keeps_print ("Value must be at least "
                                   ++ Py.str minimum ++ ".") w1 Hi) as Hp.
        cbn [print write world_of] in Hp. unfold print, write. cbv beta iota.
        now apply IH.
      * unfold ret. split; [lia|exact Hi].
    + unfold bind. pose proof (keeps_print "Please enter a valid number." w1 Hi) as Hp.
      cbn [print write world_of] in Hp. unfold print, write. cbv beta iota.
      now apply IH.
Qed.

Lemma keeps_prompt_int_bind {B : Type} (message : string) (minimum : Z)
    (k : Z -> M B) :
  (forall v, minimum <= v -> keeps I (k v)) ->
  keeps I (bind (prompt_int message minimum) k).
Proof.
  intros Hk w H. unfold bind, prompt_int.
  pose proof (prompt_int_loop_keeps message minimum (stdin w) w H) as Hp.
  destruct (prompt_int_loop message minimum (stdin w) w) as [v w'|e w'];
    cbn [world_of]; [|exact Hp].
  destruct Hp as [Hv Hw]. now apply Hk.
Qed.

End Keeping.

Section KeepingStore.

Context {Iout Iin : World -> Prop}.
Hypothesis T : transaction_closed Iout Iin.

Lemma keeps_with {A : Type} (body : M A) :
  keeps Iin body -> keeps Iout (with_connect_db body).
Proof.
  intros Hb w H. unfold with_connect_db.
  pose proof (Hb _ (closed_open Iout Iin T w H)) as H2.
  destruct (body _) as [a w2|e w2]; cbn [world_of] in *.
  - now apply (closed_leave Iout Iin T).
  - now apply (closed_rollback Iout Iin T).
Qed.

Lemma keeps_commit : keeps Iin commit.
Proof. intros w H. now apply (closed_commit Iout Iin T). Qed.

Lemma keeps_execute (stmt : database -> exn + database) :
  (forall w d, Iin w -> stmt (conn w) = inr d -> Iin (set_conn d w)) ->
  keeps Iin (execute stmt).
Proof.
  intros Hs w H. unfold execute.
  destruct (stmt (conn w)) as [e|d] eqn:E; cbn [world_of]; [exact H|].
  now apply Hs.
Qed.

End KeepingStore.

(** ** Every operation keeps what its statements keep *)

Ltac keep_step :=
  match goal with
  | |- keeps _ (ret _) => apply keeps_ret
  | |- keeps _ (raise _) => apply keeps_raise
  | |- keeps _ (print _) => apply keeps_print; assumption
  | |- keeps _ (input _) => apply keeps_input; assumption
  | |- keeps _ utcnow_isoformat => apply keeps_utcnow; assumption
  | |- keeps _ (fun w => Return tt (set_export_file _ w)) =>
      apply keeps_export; assumption
  | |- keeps _ (fetch _) => apply keeps_fetch
  | |- keeps _ (fetch_checked _) => apply keeps_fetch_checked
  | |- keeps _ commit => eapply keeps_commit; eassumption
  | |- keeps _ (with_connect_db _) => eapply keeps_with; [eassumption|]
  | |- keeps _ (for_each _ _) => apply keeps_for_each; intros ?
  | |- keeps _ (bind (prompt_int _ _) _) =>
      apply keeps_prompt_int_bind; [assumption | intros ? ?]
  | |- keeps _ (bind _ _) => apply keeps_bind; [|intros ?]
  | |- keeps _ (if ?b then _ else _) => destruct b eqn:?
  | |- keeps _ (match ?x with _ => _ end) => destruct x eqn:?
  | |- keeps _ (let _ := _ in _) => cbv zeta
  end.

Ltac keep := repeat keep_step.

Section Operations.

Context {Iout Iin : World -> Prop}.
Hypothesis Cout : console_closed Iout.
Hypothesis Cin : console_closed Iin.
Hypothesis T : transaction_closed Iout Iin.

Lemma keeps_view_inventory : keeps Iout view_inventory.
Proof. unfold view_inventory. keep. Qed.

Lemma keeps_search_inventory : keeps Iout search_inventory.
Proof. unfold search_inventory. keep. Qed.

Lemma keeps_view_orders : keeps Iout view_orders.
Proof. unfold view_orders. keep. Qed.

Lemma keeps_view_low_stock : keeps Iout view_low_stock.
Proof. unfold view_low_stock. keep. Qed.

Lemma keeps_export_inventory : keeps Iout export_inventory.
Proof. unfold export_inventory. keep. Qed.

Lemma keeps_inventory_summary : keeps Iout inventory_summary.
Proof. unfold inventory_summary. keep. Qed.

Lemma keeps_create_tables : keeps Iout create_tables.
Proof.
  unfold create_tables. keep;
    eapply keeps_execute; try eassumption;
    intros w d Hw E; unfold create_table_if_not_exists in E; inversion E; subst;
    now destruct w.
Qed.

Hypothesis S_upsert : forall w name_line category_line qty reorder_level d,
    Py.strip name_line <> EmptyString ->
    Iin w ->
    upsert_item (Py.strip name_line)
      (Py.or_else (Py.strip category_line) "General") qty reorder_level (conn w)
    = inr d ->
    Iin (set_conn d w).
Hypothesis S_update_qty : forall w new_qty id d,
    Iin w -> update_qty new_qty id (conn w) = inr d -> Iin (set_conn d w).
Hypothesis S_update_qty_minus : forall w q id d,
    1 <= q -> Iin w -> update_qty_minus q id (conn w) = inr d ->
    Iin (set_conn d w).
Hypothesis S_insert_order : forall w item_id qty note ordered_at d,
    Iin w -> insert_order item_id qty note ordered_at (conn w) = inr d ->
    Iin (set_conn d w).
Hypothesis S_delete : forall w name,
    Iin w -> Iin (set_conn (fst (Sqlite.delete_item name (conn w))) w).

Lemma keeps_add_or_update_item : keeps Iout add_or_update_item.
Proof.
  unfold add_or_update_item. keep.
  eapply keeps_execute. intros w d Hw E.
  eapply S_upsert; [|eassumption|eassumption].
  intros Hn. rewrite Hn in *. discriminate.
Qed.

Lemma keeps_adjust_quantity : keeps Iout adjust_quantity.
Proof.
  unfold adjust_quantity. keep.
  all: eapply keeps_execute; intros w d Hw E;
    eapply S_update_qty; eassumption.
Qed.

Lemma keeps_place_order : keeps Iout place_order.
Proof.
  unfold place_order. keep.
  - eapply keeps_execute. intros w d Hw E.
    eapply S_update_qty_minus; eassumption.
  - eapply keeps_execute. intros w d Hw E.
    eapply S_insert_order; eassumption.
Qed.

Lemma keeps_delete_item : keeps Iout delete_item.
Proof.
  unfold delete_item. keep.
  intros w Hw. destruct (Sqlite.delete_item _ (conn w)) as [d n] eqn:E.
  pose proof (S_delete w (Py.strip a) Hw) as Hd. rewrite E in Hd.
  cbn [fst] in Hd.
  assert (Hk : keeps Iin (bind commit (fun _ => ret n))) by keep.
  exact (Hk _ Hd).
Qed.

Lemma keeps_chosen (choice : string) : keeps Iout (chosen choice).
Proof.
  unfold chosen, menu_options. cbn [get].
  repeat match goal with
         | |- keeps _ (match (if ?b then _ else _) with _ => _ end) => destruct b
         end;
    first [ apply keeps_add_or_update_item | apply keeps_view_inventory
          | apply keeps_search_inventory | apply keeps_adjust_quantity
          | apply keeps_place_order | apply keeps_view_orders
          | apply keeps_view_low_stock | apply keeps_delete_item
          | apply keeps_export_inventory | apply keeps_inventory_summary
          | apply keeps_ret | apply keeps_print; assumption ].
Qed.

Lemma keeps_menu_loop (turns : list string) : keeps Iout (menu_loop turns).
Proof.
  induction turns as [|t turns IH]; cbn [menu_loop].
  - keep.
  - apply keeps_bind; [keep|intros _]. apply keeps_bind; [keep|intros _].
    apply keeps_bind; [keep|intros line]. cbv zeta.
    destruct (_ =? "11")%string; [apply keeps_ret|].
    apply keeps_bind; [apply keeps_chosen|intros _; exact IH].
Qed.

Lemma keeps_main : keeps Iout main.
Proof.
  unfold main. apply keeps_bind; [apply keeps_create_tables|intros _].
  intros w H. now apply keeps_menu_loop.
Qed.

End Operations.

(** ** Invariants of the store *)

Section StoreInvariant.

Variable P : database -> Prop.

Lemma on_file_console : console_closed (on_file P).
Proof. constructor; intros; assumption. Qed.

Lemma in_transaction_console : console_closed (in_transaction P).
Proof. constructor; intros; assumption. Qed.

Lemma store_transaction : transaction_closed (on_file P) (in_transaction P).
Proof.
  constructor; unfold on_file, in_transaction; intros w H; cbn.
  - tauto.
  - tauto.
  - tauto.
  - tauto.
Qed.

Lemma store_statement (stmt : database -> exn + database) :
  (forall d d', P d -> stmt d = inr d' -> P d') ->
  forall w d, in_transaction P w -> stmt (conn w) = inr d ->
              in_transaction P (set_conn d w).
Proof.
  intros Hs w d [H1 H2] E. split; cbn; [exact H1|]. exact (Hs _ _ H2 E).
Qed.

End StoreInvariant.

Lemma next_rowid_fresh (ids : list Z) : ~ In (next_rowid ids) ids.
Proof.
  assert (H : forall x, In x ids -> x <= fold_right Z.max 0 ids).
  { induction ids as [|y ids IH]; simpl; [tauto|].
    intros x [->|Hx]; [lia|]. specialize (IH x Hx). lia. }
  intros Hin. specialize (H _ Hin). unfold next_rowid in H. lia.
Qed.

Lemma or_else_General (s : string) : Py.or_else s "General" <> "".
Proof. unfold Py.or_else. destruct s; simpl; discriminate. Qed.

(** A [DELETE ... WHERE] keeps a unique column unique. *)
Lemma filter_unique {K : Type} (key : inventory.row -> K)
    (keep : inventory.row -> bool) (t : list inventory.row)
    (U : NoDup (map key t)) :
  NoDup (map key (filter keep t)).
Proof.
  revert U. induction t as [|r t IH]; cbn; intros U; [exact U|].
  apply NoDup_cons_iff in U. destruct U as [Hr Ht].
  destruct (keep r); cbn; [|exact (IH Ht)].
  apply NoDup_cons; [|exact (IH Ht)].
  intros Hin. apply Hr. apply in_map_iff in Hin. destruct Hin as (y & E & Hy).
  apply filter_In in Hy. rewrite <- E. apply in_map. tauto.
Qed.

Section Constraints.

Lemma upsert_item_constraints (name category : string) (qty reorder_level : Z)
    (d d' : database) :
  name <> "" -> category <> "" ->
  constraints d ->
  upsert_item name category qty reorder_level d = inr d' ->
  constraints d'.
Proof.
  intros Hn Hc K. unfold upsert_item, all_fit. simpl forallb.
  destruct (fits_int64 qty) eqn:Fq; [|discriminate].
  destruct (fits_int64 reorder_level) eqn:Fr; [|discriminate]. simpl.
  destruct (0 <=? qty) eqn:Pq; [|discriminate].
  destruct (0 <=? reorder_level) eqn:Pr; [|discriminate]. simpl.
  apply fits_int64_iff in Fq, Fr. apply Z.leb_le in Pq, Pr.
  destruct K as [Kid Kit Krow Koid Korow].
  destruct (existsb _ (tbl_inventory d)) eqn:Ex; intros E; inversion E; subst; clear E;
    constructor; cbn; try assumption.
  - rewrite map_map. cbn.
    erewrite map_ext; [exact Kid|]. intros r.
    now destruct (inventory.item r =? name)%string.
  - now rewrite map_item_replaced.
  - apply Forall_forall. intros r Hr. apply in_map_iff in Hr.
    destruct Hr as (r0 & <- & Hr0).
    destruct (inventory.item r0 =? name)%string; cbn.
    + repeat split; try assumption; lia.
    + exact (proj1 (Forall_forall _ _) Krow r0 Hr0).
  - rewrite map_app. cbn. apply NoDup_app; [assumption|repeat constructor; simpl; tauto|].
    intros x Hx [<-|[]]. exact (next_rowid_fresh _ Hx).
  - rewrite map_app. cbn. apply NoDup_app; [assumption|repeat constructor; simpl; tauto|].
    intros x Hx [<-|[]].
    assert (Hex : existsb (fun r => inventory.item r =? name)%string (tbl_inventory d)
                  = true) by now apply existsb_item.
    congruence.
  - apply Forall_app. split; [assumption|]. repeat constructor; cbn; try assumption; lia.
Qed.

Lemma set_qty_constraints (f : Z -> Z) (id : Z) (t u : list inventory.row) :
  (forall old, 0 <= old < 2 ^ 63 -> 0 <= f old -> f old < 2 ^ 63) ->
  set_qty f id t = Some u ->
  Forall (fun r => inventory.item r <> "" /\ inventory.category r <> "" /\
                   0 <= inventory.qty r < 2 ^ 63 /\
                   0 <= inventory.reorder_level r < 2 ^ 63) t ->
  map inventory.id u = map inventory.id t /\
  map inventory.item u = map inventory.item t /\
  Forall (fun r => inventory.item r <> "" /\ inventory.category r <> "" /\
                   0 <= inventory.qty r < 2 ^ 63 /\
                   0 <= inventory.reorder_level r < 2 ^ 63) u.
Proof.
  intros Hf. revert u. induction t as [|r t IH]; simpl; intros u E Hall.
  - inversion E. repeat split; constructor.
  - inversion Hall as [|? ? Hr Ht]; subst.
    destruct (inventory.id r =? id).
    + destruct (Z.ltb_spec (f (inventory.qty r)) 0) as [|Hge]; [discriminate|].
      destruct (set_qty f id t) as [u'|]; [|discriminate].
      inversion E; subst. destruct (IH u' eq_refl Ht) as (I1 & I2 & I3).
      cbn. rewrite I1, I2. repeat split; try reflexivity.
      constructor; [|exact I3]. cbn. destruct Hr as (? & ? & Hq & ?).
      repeat split; try tauto. now apply Hf.
    + destruct (set_qty f id t) as [u'|]; [|discriminate].
      inversion E; subst. destruct (IH u' eq_refl Ht) as (I1 & I2 & I3).
      cbn. rewrite I1, I2. repeat split; try reflexivity.
      now constructor.
Qed.

Lemma update_qty_constraints (new_qty id : Z) (d d' : database) :
  constraints d -> update_qty new_qty id d = inr d' -> constraints d'.
Proof.
  intros [Kid Kit Krow Koid Korow]. unfold update_qty, all_fit. simpl forallb.
  destruct (fits_int64 new_qty) eqn:Fq; [|discriminate]. apply fits_int64_iff in Fq.
  destruct (fits_int64 id); [|discriminate]. simpl.
  destruct (set_qty _ id _) as [u|] eqn:Eu; [|discriminate].
  intros E; inversion E; subst.
  destruct (set_qty_constraints _ _ _ _ (fun _ _ _ => proj2 Fq) Eu Krow) as (I1 & I2 & I3).
  constructor; cbn; try assumption; congruence.
Qed.

Lemma update_qty_minus_constraints (q id : Z) (d d' : database) :
  1 <= q -> constraints d -> update_qty_minus q id d = inr d' -> constraints d'.
Proof.
  intros Hq [Kid Kit Krow Koid Korow]. unfold update_qty_minus.
  destruct (negb _); [discriminate|].
  destruct (set_qty _ id _) as [u|] eqn:Eu; [|discriminate].
  intros E; inversion E; subst.
  destruct (set_qty_constraints (fun old => old - q) _ _ _
              ltac:(intros; lia) Eu Krow) as (I1 & I2 & I3).
  constructor; cbn; try assumption; congruence.
Qed.

Lemma insert_order_constraints (item_id qty : Z) (note : option string)
    (ordered_at : string) (d d' : database) :
  constraints d -> insert_order item_id qty note ordered_at d = inr d' ->
  constraints d'.
Proof.
  intros [Kid Kit Krow Koid Korow]. unfold insert_order, all_fit. simpl forallb.
  destruct (fits_int64 item_id); [|discriminate].
  destruct (fits_int64 qty) eqn:Fq; [|discriminate]. apply fits_int64_iff in Fq. simpl.
  destruct (Z.ltb_spec 0 qty) as [Hq|]; [|discriminate]. simpl.
  intros E; inversion E; subst. constructor; cbn; try assumption.
  - rewrite map_app. cbn. apply NoDup_app; [assumption|repeat constructor; simpl; tauto|].
    intros x Hx [<-|[]]. exact (next_rowid_fresh _ Hx).
  - apply Forall_app. split; [assumption|]. repeat constructor; cbn; lia.
Qed.

Lemma delete_item_constraints (name : string) (d : database) :
  constraints d -> constraints (fst (Sqlite.delete_item name d)).
Proof.
  intros [Kid Kit Krow Koid Korow]. constructor; cbn; try assumption.
  - now apply filter_unique.
  - now apply filter_unique.
  - apply Forall_forall. intros r Hr. apply filter_In in Hr.
    exact (proj1 (Forall_forall _ _) Krow r (proj1 Hr)).
Qed.

End Constraints.

(** ** What every operation keeps of the store *)

Section StoreKeeps.

Variable P : database -> Prop.
Hypothesis P_upsert : forall name category qty reorder_level d d',
    name <> "" -> category <> "" -> P d ->
    upsert_item name category qty reorder_level d = inr d' -> P d'.
Hypothesis P_update_qty : forall new_qty id d d',
    P d -> update_qty new_qty id d = inr d' -> P d'.
Hypothesis P_update_qty_minus : forall q id d d',
    1 <= q -> P d -> update_qty_minus q id d = inr d' -> P d'.
Hypothesis P_insert_order : forall item_id qty note ordered_at d d',
    P d -> insert_order item_id qty note ordered_at d = inr d' -> P d'.
Hypothesis P_delete : forall name d, P d -> P (fst (Sqlite.delete_item name d)).

Lemma store_upsert w name_line category_line qty reorder_level d :
  Py.strip name_line <> "" ->
  in_transaction P w ->
  upsert_item (Py.strip name_line)
    (Py.or_else (Py.strip category_line) "General") qty reorder_level (conn w)
  = inr d ->
  in_transaction P (set_conn d w).
Proof.
  intros Hn Hw E. eapply store_statement; [|exact Hw|exact E].
  intros d0 d1. apply P_upsert; [exact Hn|apply or_else_General].
Qed.

Lemma store_update_qty w new_qty id d :
  in_transaction P w -> update_qty new_qty id (conn w) = inr d ->
  in_transaction P (set_conn d w).
Proof. apply store_statement. intros d0 d1. apply P_update_qty. Qed.

Lemma store_update_qty_minus w q id d :
  1 <= q -> in_transaction P w -> update_qty_minus q id (conn w) = inr d ->
  in_transaction P (set_conn d w).
Proof. intros Hq. apply store_statement. intros d0 d1. now apply P_update_qty_minus. Qed.

Lemma store_insert_order w item_id qty note ordered_at d :
  in_transaction P w -> insert_order item_id qty note ordered_at (conn w) = inr d ->
  in_transaction P (set_conn d w).
Proof. apply store_statement. intros d0 d1. apply P_insert_order. Qed.

Lemma store_delete w name :
  in_transaction P w ->
  in_transaction P (set_conn (fst (Sqlite.delete_item name (conn w))) w).
Proof. intros [H1 H2]. split; cbn; [exact H1|]. now apply P_delete. Qed.

Lemma store_keeps_operation (op : M unit) :
  In op operations -> keeps (on_file P) op.
Proof.
  pose proof (on_file_console P) as Co.
  pose proof (in_transaction_console P) as Ci.
  pose proof (store_transaction P) as T.
  unfold operations. simpl.
  intros [<-|[<-|[<-|[<-|[<-|[<-|[<-|[<-|[<-|[<-|[]]]]]]]]]]].
  - exact (keeps_add_or_update_item Co T store_upsert).
  - exact (keeps_view_inventory Co T).
  - exact (keeps_search_inventory Co T).
  - exact (keeps_adjust_quantity Co Ci T store_update_qty).
  - exact (keeps_place_order Co Ci T store_update_qty_minus store_insert_order).
  - exact (keeps_view_orders Co T).
  - exact (keeps_view_low_stock Co T).
  - exact (keeps_delete_item Co T store_delete).
  - exact (keeps_export_inventory Co T).
  - exact (keeps_inventory_summary Co T).
Qed.

Lemma store_keeps_main : keeps (on_file P) main.
Proof.
  exact (keeps_main (on_file_console P) (in_transaction_console P)
           (store_transaction P) store_upsert store_update_qty
           store_update_qty_minus store_insert_order store_delete).
Qed.

End StoreKeeps.

Lemma set_qty_map (f : Z -> Z) (id : Z) (t u : list inventory.row) :
  set_qty f id t = Some u ->
  u = map (fun r => if inventory.id r =? id
                    then inventory.mk (inventory.id r) (inventory.item r)
                           (inventory.category r) (f (inventory.qty r))
                           (inventory.reorder_level r)
                    else r) t.
Proof.
  revert u. induction t as [|r t IH]; simpl; intros u E.
  - now inversion E.
  - destruct (inventory.id r =? id).
    + destruct (f (inventory.qty r) <? 0); [discriminate|].
      destruct (set_qty f id t) as [u'|]; [|discriminate].
      inversion E. now rewrite (IH u' eq_refl).
    + destruct (set_qty f id t) as [u'|]; [|discriminate].
      inversion E. now rewrite (IH u' eq_refl).
Qed.

Lemma select_id_qty_In (name : string) (d : database) (id stock : Z) :
  select_id_qty name d = Some (id, stock) ->
  exists r, In r (tbl_inventory d) /\ inventory.item r = name /\
            inventory.id r = id /\ inventory.qty r = stock.
Proof.
  unfold select_id_qty. destruct (find _ _) as [r|] eqn:E; [|discriminate].
  intros H; inversion H; subst. apply find_some in E. destruct E as [Hin Hn].
  apply String.eqb_eq in Hn. eauto.
Qed.

Lemma place_order_cases (w : World) :
  db_file (world_of (place_order w)) = db_file w \/
  exists id q o r,
    1 <= q <= inventory.qty r /\ In r (tbl_inventory (db_file w)) /\
    inventory.id r = id /\ orders.item_id o = id /\ orders.qty o = q /\
    db_file (world_of (place_order w))
    = mkdb (take_from id q (tbl_inventory (db_file w)))
           (tbl_orders (db_file w) ++ [o]).
Proof.
  remember (place_order w) as o eqn:Eo. unfold place_order in Eo.
  unfold bind at 1 in Eo.
  pose proof (input_console "Item to order: " w) as C1.
  destruct (input "Item to order: " w) as [l1 w1|e1 w1]; world;
    apply console_step_store in C1; destruct C1 as (D1 & _);
    [|subst o; left; exact D1].
  cbv zeta in Eo. unfold bind at 1 in Eo.
  pose proof (prompt_int_loop_keeps (I := fun _ => True)
                ltac:(constructor; auto) "Quantity: " 1 (stdin w1) w1 I) as Hq.
  pose proof (prompt_int_console "Quantity: " 1 w1) as C2.
  unfold prompt_int in *.
  destruct (prompt_int_loop "Quantity: " 1 (stdin w1) w1) as [q w2|e2 w2]; world;
    apply console_step_store in C2; destruct C2 as (D2 & _);
    [|subst o; left; cbn; congruence].
  destruct Hq as [Hq _].
  unfold bind at 1 in Eo.
  pose proof (input_console "Note (optional): " w2) as C3.
  destruct (input "Note (optional): " w2) as [l3 w3|e3 w3]; world;
    apply console_step_store in C3; destruct C3 as (D3 & _);
    [|subst o; left; cbn; congruence].
  cbv zeta in Eo.
  assert (D : db_file w3 = db_file w) by congruence. clear D1 D2 D3.
  unfold bind at 1, with_connect_db in Eo. world.
  unfold bind at 1, fetch in Eo. world.
  destruct (select_id_qty (Py.strip l1) (db_file w3)) as [[id stock]|] eqn:Esel.
  - destruct (Z.ltb_spec stock q) as [Hlt|Hge].
    + subst o. left. exact D.
    + unfold bind at 1, execute in Eo. world.
      destruct (update_qty_minus q id (db_file w3)) as [e|d1] eqn:Eu.
      { subst o. left. exact D. }
      unfold bind at 1, utcnow_isoformat in Eo. world.
      unfold bind at 1, execute in Eo. world.
      destruct (insert_order id q _ _ d1) as [e|d2] eqn:Ei.
      { subst o. left. exact D. }
      subst o. right. world.
      unfold update_qty_minus in Eu. destruct (negb _); [discriminate|].
      destruct (set_qty _ id _) as [u|] eqn:Es; [|discriminate].
      inversion Eu; subst d1. apply set_qty_map in Es.
      unfold insert_order in Ei. destruct (negb _); [discriminate|].
      destruct (negb _); [discriminate|]. inversion Ei; subst d2. cbn.
      apply select_id_qty_In in Esel. destruct Esel as (r & Hin & _ & Hid & Hs).
      rewrite D in Hin.
      exists id, q,
        (orders.mk (next_rowid (map orders.id (tbl_orders (db_file w3)))) id q
           (Py.or_None (Py.strip l3)) (clock w3 (ticks w3))), r.
      split; [lia|]. split; [exact Hin|]. split; [exact Hid|].
      split; [reflexivity|]. split; [reflexivity|].
      rewrite Es, D. reflexivity.
  - subst o. left. exact D.
Qed.

Lemma upsert_item_orders (name category : string) (qty reorder_level : Z)
    (d d' : database) :
  upsert_item name category qty reorder_level d = inr d' ->
  tbl_orders d' = tbl_orders d.
Proof.
  unfold upsert_item. destruct (negb _); [discriminate|].
  destruct (negb _); [discriminate|].
  destruct (existsb _ _); intros E; inversion E; reflexivity.
Qed.

Lemma update_qty_orders (new_qty id : Z) (d d' : database) :
  update_qty new_qty id d = inr d' -> tbl_orders d' = tbl_orders d.
Proof.
  unfold update_qty. destruct (negb _); [discriminate|].
  destruct (set_qty _ _ _); [|discriminate]. intros E; inversion E; reflexivity.
Qed.

Lemma update_qty_minus_orders (q id : Z) (d d' : database) :
  update_qty_minus q id d = inr d' -> tbl_orders d' = tbl_orders d.
Proof.
  unfold update_qty_minus. destruct (negb _); [discriminate|].
  destruct (set_qty _ _ _); [|discriminate]. intros E; inversion E; reflexivity.
Qed.

Lemma insert_order_orders (item_id qty : Z) (note : option string)
    (ordered_at : string) (d d' : database) :
  insert_order item_id qty note ordered_at d = inr d' ->
  exists o, tbl_orders d' = (tbl_orders d ++ [o])%list /\
            tbl_inventory d' = tbl_inventory d.
Proof.
  unfold insert_order. destruct (negb _); [discriminate|].
  destruct (negb _); [discriminate|]. intros E; inversion E.
  eexists. split; reflexivity.
Qed.

Lemma set_qty_names (f : Z -> Z) (id : Z) (d : database) (u : list inventory.row) :
  set_qty f id (tbl_inventory d) = Some u -> names (with_inventory u d) = names d.
Proof.
  intros E. apply set_qty_map in E. subst u. unfold names. cbn.
  rewrite map_map. apply map_ext. intros r. now destruct (inventory.id r =? id).
Qed.

Lemma upsert_item_names (name category : string) (qty reorder_level : Z)
    (d d' : database) :
  upsert_item name category qty reorder_level d = inr d' ->
  exists more, names d' = (names d ++ more)%list.
Proof.
  unfold upsert_item. destruct (negb _); [discriminate|].
  destruct (negb _); [discriminate|].
  destruct (existsb _ _); intros E; inversion E; unfold names; cbn.
  - exists []. rewrite List.app_nil_r, map_map. apply map_ext. intros r.
    destruct (inventory.item r =? name)%string eqn:En; [|reflexivity].
    apply String.eqb_eq in En. now rewrite En.
  - rewrite map_app. eexists. reflexivity.
Qed.

Lemma widget5_constraints : constraints Demo.widget5.
Proof.
  constructor; cbn; repeat constructor; cbn; try lia; try discriminate; tauto.
Qed.

Lemma empty_constraints : constraints Sqlite.empty.
Proof. constructor; cbn; constructor. Qed.

Section Invariants.

(** X1.  Whatever is typed and however it ends, with a return or with an
    exception, each of the ten operations leaves the stored state within the
    schema and the ranges the operations check: unique ids and names, no
    empty name or category, quantities and reorder levels between 0 and
    2^63 - 1, orders with unique ids and quantities between 1 and
    2^63 - 1. *)
Theorem operations_keep_constraints (op : M unit) (w : World) :
  In op operations ->
  constraints (db_file w) ->
  constraints (db_file (world_of (op w))).
Proof.
  intros Hop. revert w.
  apply (store_keeps_operation constraints); try assumption.
  - intros ? ? ? ? ? ? Hn Hc K E. exact (upsert_item_constraints _ _ _ _ _ _ Hn Hc K E).
  - intros; eapply update_qty_constraints; eassumption.
  - intros; eapply update_qty_minus_constraints; eassumption.
  - intros; eapply insert_order_constraints; eassumption.
  - intros; now apply delete_item_constraints.
Qed.

Lemma operations_keep_constraints_witness :
  constraints (db_file (world_of (add_or_update_item Demo.saving_twice))).
Proof.
  apply (operations_keep_constraints add_or_update_item Demo.saving_twice).
  - simpl. tauto.
  - exact widget5_constraints.
Defined.

(** X2.  A whole session of [main], from the creation of the tables to the
    exit or to the exception that ends it, leaves the stored state within
    the same constraints. *)
Theorem main_keeps_constraints (w : World) :
  constraints (db_file w) ->
  constraints (db_file (world_of (main w))).
Proof.
  revert w. apply (store_keeps_main constraints).
  - intros ? ? ? ? ? ? Hn Hc K E. exact (upsert_item_constraints _ _ _ _ _ _ Hn Hc K E).
  - intros; eapply update_qty_constraints; eassumption.
  - intros; eapply update_qty_minus_constraints; eassumption.
  - intros; eapply insert_order_constraints; eassumption.
  - intros; now apply delete_item_constraints.
Qed.

Lemma main_keeps_constraints_witness :
  constraints (db_file (world_of (main Demo.session))).
Proof.
  apply (main_keeps_constraints Demo.session). exact empty_constraints.
Defined.

(** X3.  Over a whole session of [main] the table [orders] only grows at
    its end: no operation of the menu deletes, changes or reorders a stored
    order. *)
Theorem main_orders_append_only (w : World) :
  exists more,
    tbl_orders (db_file (world_of (main w))) = (tbl_orders (db_file w) ++ more)%list.
Proof.
  set (P := fun d => exists more, tbl_orders d = (tbl_orders (db_file w) ++ more)%list).
  assert (H : keeps (on_file P) main).
  { apply store_keeps_main; unfold P.
    - intros ? ? ? ? d d' _ _ [m Hm] E. exists m.
      now rewrite (upsert_item_orders _ _ _ _ _ _ E).
    - intros ? ? d d' [m Hm] E. exists m. now rewrite (update_qty_orders _ _ _ _ E).
    - intros ? ? d d' _ [m Hm] E. exists m.
      now rewrite (update_qty_minus_orders _ _ _ _ E).
    - intros ? ? ? ? d d' [m Hm] E.
      destruct (insert_order_orders _ _ _ _ _ _ E) as (o & Ho & _).
      exists (m ++ [o])%list. now rewrite Ho, Hm, List.app_assoc.
    - intros ? d [m Hm]. exists m. exact Hm. }
  apply (H w). exists []. now rewrite List.app_nil_r.
Qed.

(** X4.  The six operations that only list, search, report or export never
    change the database file, whatever is typed and also when they end with
    an exception. *)
Theorem queries_leave_store (op : M unit) (w : World) :
  In op queries ->
  db_file (world_of (op w)) = db_file w.
Proof.
  set (P := fun d => d = db_file w).
  pose proof (on_file_console P) as Co.
  pose proof (store_transaction P) as T.
  assert (H : In op queries -> keeps (on_file P) op).
  { unfold queries. simpl. intros [<-|[<-|[<-|[<-|[<-|[<-|[]]]]]]].
    - exact (keeps_view_inventory Co T).
    - exact (keeps_search_inventory Co T).
    - exact (keeps_view_orders Co T).
    - exact (keeps_view_low_stock Co T).
    - exact (keeps_export_inventory Co T).
    - exact (keeps_inventory_summary Co T). }
  intros Hop. exact (H Hop w eq_refl).
Qed.

Lemma queries_leave_store_witness :
  db_file (world_of (inventory_summary (boot [] Demo.clk Demo.heavy))) = Demo.heavy.
Proof.
  apply (queries_leave_store inventory_summary (boot [] Demo.clk Demo.heavy)).
  simpl. tauto.
Defined.

(** X5.  [place_order] is all or nothing, for every input and every way it
    can end: the database file is left as it was, or, for one quantity
    [q >= 1] and one stored item that had at least [q], the quantity of the
    rows with that item's id went down by [q] and exactly one order for that
    id and quantity was added at the end of [orders]. *)
Theorem place_order_atomic (w : World) :
  db_file (world_of (place_order w)) = db_file w \/
  exists id q o r,
    1 <= q <= inventory.qty r /\ In r (tbl_inventory (db_file w)) /\
    inventory.id r = id /\ orders.item_id o = id /\ orders.qty o = q /\
    db_file (world_of (place_order w))
    = mkdb (take_from id q (tbl_inventory (db_file w)))
           (tbl_orders (db_file w) ++ [o]).
Proof. exact (place_order_cases w). Qed.

(** X6.  Of the ten operations only [place_order] writes to [orders], and
    it adds one row at the end: after any other operation the table is as
    before. *)
Theorem orders_ledger (op : M unit) (w : World) :
  In op operations ->
  tbl_orders (db_file (world_of (op w))) = tbl_orders (db_file w) \/
  (op = place_order /\
   exists o, tbl_orders (db_file (world_of (op w)))
             = (tbl_orders (db_file w) ++ [o])%list).
Proof.
  set (P := fun d => tbl_orders d = tbl_orders (db_file w)).
  pose proof (on_file_console P) as Co.
  pose proof (in_transaction_console P) as Ci.
  pose proof (store_transaction P) as T.
  assert (Hu : forall w0 new_qty id d,
             in_transaction P w0 -> update_qty new_qty id (conn w0) = inr d ->
             in_transaction P (set_conn d w0)).
  { intros w0 ? ? d. apply store_statement. unfold P. intros d0 d1 H0 E.
    now rewrite (update_qty_orders _ _ _ _ E). }
  assert (Ha : forall w0 name_line category_line qty reorder_level d,
             Py.strip name_line <> "" -> in_transaction P w0 ->
             upsert_item (Py.strip name_line)
               (Py.or_else (Py.strip category_line) "General") qty reorder_level
               (conn w0) = inr d ->
             in_transaction P (set_conn d w0)).
  { intros w0 ? ? ? ? d _. apply store_statement. unfold P. intros d0 d1 H0 E.
    now rewrite (upsert_item_orders _ _ _ _ _ _ E). }
  assert (Hd : forall w0 name,
             in_transaction P w0 ->
             in_transaction P (set_conn (fst (Sqlite.delete_item name (conn w0))) w0)).
  { intros w0 name [H1 H2]. split; [exact H1|exact H2]. }
  unfold operations. simpl.
  intros [<-|[<-|[<-|[<-|[<-|[<-|[<-|[<-|[<-|[<-|[]]]]]]]]]]].
  - left. exact (keeps_add_or_update_item Co T Ha w eq_refl).
  - left. exact (keeps_view_inventory Co T w eq_refl).
  - left. exact (keeps_search_inventory Co T w eq_refl).
  - left. exact (keeps_adjust_quantity Co Ci T Hu w eq_refl).
  - destruct (place_order_cases w) as [E|(id & q & o & r & _ & _ & _ & _ & _ & E)].
    + left. now rewrite E.
    + right. split; [reflexivity|]. exists o. now rewrite E.
  - left. exact (keeps_view_orders Co T w eq_refl).
  - left. exact (keeps_view_low_stock Co T w eq_refl).
  - left. exact (keeps_delete_item Co T Hd w eq_refl).
  - left. exact (keeps_export_inventory Co T w eq_refl).
  - left. exact (keeps_inventory_summary Co T w eq_refl).
Qed.

Lemma orders_ledger_witness :
  tbl_orders (db_file (world_of (place_order Demo.ordering)))
  = tbl_orders (db_file Demo.ordering) \/
  (place_order = place_order /\
   exists o, tbl_orders (db_file (world_of (place_order Demo.ordering)))
             = (tbl_orders (db_file Demo.ordering) ++ [o])%list).
Proof.
  apply (orders_ledger place_order Demo.ordering). simpl. tauto.
Defined.

(** X7.  Of the ten operations only [delete_item] removes an item or
    changes which id goes with which name: after any other operation the
    stored pairs of id and name are the ones before, in the same order,
    followed by those of the items it added. *)
Theorem names_kept (op : M unit) (w : World) :
  In op operations ->
  (exists more, names (db_file (world_of (op w))) = (names (db_file w) ++ more)%list) \/
  op = delete_item.
Proof.
  set (P := fun d => exists more, names d = (names (db_file w) ++ more)%list).
  pose proof (on_file_console P) as Co.
  pose proof (in_transaction_console P) as Ci.
  pose proof (store_transaction P) as T.
  assert (P0 : on_file P w) by (exists []; now rewrite List.app_nil_r).
  assert (Hq : forall f id d u,
             P d -> set_qty f id (tbl_inventory d) = Some u -> P (with_inventory u d)).
  { intros f id d u [m Hm] E. exists m. now rewrite (set_qty_names _ _ _ _ E). }
  assert (Hu : forall w0 new_qty id d,
             in_transaction P w0 -> update_qty new_qty id (conn w0) = inr d ->
             in_transaction P (set_conn d w0)).
  { intros w0 ? ? d. apply store_statement. intros d0 d1 H0.
    unfold update_qty. destruct (negb _); [discriminate|].
    destruct (set_qty _ _ _) as [u|] eqn:E; [|discriminate].
    intros E1; inversion E1. now apply (Hq _ _ _ _ H0 E). }
  assert (Hm : forall w0 q id d,
             1 <= q -> in_transaction P w0 ->
             update_qty_minus q id (conn w0) = inr d ->
             in_transaction P (set_conn d w0)).
  { intros w0 ? ? d _. apply store_statement. intros d0 d1 H0.
    unfold update_qty_minus. destruct (negb _); [discriminate|].
    destruct (set_qty _ _ _) as [u|] eqn:E; [|discriminate].
    intros E1; inversion E1. now apply (Hq _ _ _ _ H0 E). }
  assert (Hi : forall w0 item_id qty note ordered_at d,
             in_transaction P w0 ->
             insert_order item_id qty note ordered_at (conn w0) = inr d ->
             in_transaction P (set_conn d w0)).
  { intros w0 ? ? ? ? d. apply store_statement. intros d0 d1 [m Hm0] E.
    destruct (insert_order_orders _ _ _ _ _ _ E) as (o & _ & Hinv).
    exists m. unfold names in *. now rewrite Hinv. }
  assert (Ha : forall w0 name_line category_line qty reorder_level d,
             Py.strip name_line <> "" -> in_transaction P w0 ->
             upsert_item (Py.strip name_line)
               (Py.or_else (Py.strip category_line) "General") qty reorder_level
               (conn w0) = inr d ->
             in_transaction P (set_conn d w0)).
  { intros w0 ? ? ? ? d _. apply store_statement. intros d0 d1 [m Hm0] E.
    destruct (upsert_item_names _ _ _ _ _ _ E) as [m1 Hm1].
    exists (m ++ m1)%list. now rewrite Hm1, Hm0, List.app_assoc. }
  unfold operations. simpl.
  intros [<-|[<-|[<-|[<-|[<-|[<-|[<-|[<-|[<-|[<-|[]]]]]]]]]]].
  - left. exact (keeps_add_or_update_item Co T Ha w P0).
  - left. exact (keeps_view_inventory Co T w P0).
  - left. exact (keeps_search_inventory Co T w P0).
  - left. exact (keeps_adjust_quantity Co Ci T Hu w P0).
  - left. exact (keeps_place_order Co Ci T Hm Hi w P0).
  - left. exact (keeps_view_orders Co T w P0).
  - left. exact (keeps_view_low_stock Co T w P0).
  - right. reflexivity.
  - left. exact (keeps_export_inventory Co T w P0).
  - left. exact (keeps_inventory_summary Co T w P0).
Qed.

Lemma names_kept_witness :
  (exists more,
      names (db_file (world_of (add_or_update_item Demo.saving_too_much)))
      = (names (db_file Demo.saving_too_much) ++ more)%list) \/
  add_or_update_item = delete_item.
Proof.
  apply (names_kept add_or_update_item Demo.saving_too_much). simpl. tauto.
Defined.

End Invariants.

(** ** The prompts *)

Section Prompts.

Lemma prompt_int_loop_outcome (message : string) (minimum : Z) (lines : list string) :
  forall w, stdin w = lines ->
    match prompt_int_loop message minimum lines w with
    | Return v w' => answers minimum lines v (stdin w')
    | Raise e w' => e = EOFError /\ Forall (rejected minimum) lines /\ stdin w' = []
    end.
Proof.
  induction lines as [|l lines IH]; intros w Hin; cbn [prompt_int_loop].
  - unfold bind. rewrite (input_eof _ _ Hin). world.
    split; [reflexivity|]. split; [constructor|exact Hin].
  - unfold bind at 1. rewrite (input_run _ _ _ _ Hin).
    set (w1 := set_stdin lines _).
    assert (Again : forall out,
               match prompt_int_loop message minimum lines (set_stdout out w1) with
               | Return v w' => answers minimum lines v (stdin w')
               | Raise e w' =>
                   e = EOFError /\ Forall (rejected minimum) lines /\ stdin w' = []
               end) by (intros out; now apply IH).
    assert (Turned : rejected minimum l ->
               forall out,
               match prompt_int_loop message minimum lines (set_stdout out w1) with
               | Return v w' => answers minimum (l :: lines) v (stdin w')
               | Raise e w' =>
                   e = EOFError /\ Forall (rejected minimum) (l :: lines)
                   /\ stdin w' = []
               end).
    { intros Hl out. specialize (Again out).
      destruct (prompt_int_loop message minimum lines (set_stdout out w1))
        as [v w'|e w'].
      - destruct Again as (bad & good & E & Hbad & Hgood & Hmin).
        exists (l :: bad), good. rewrite E. repeat split; auto.
      - destruct Again as (He & Hall & Hr). repeat split; auto. }
    destruct (Py.int l) as [v|] eqn:El.
    + destruct (Z.ltb_spec v minimum) as [Hlt|Hge].
      * unfold bind, print, write. cbv beta iota. apply Turned.
        unfold rejected. now rewrite El.
      * unfold ret. exists [], l. repeat split; auto.
    + unfold bind, print, write. cbv beta iota. apply Turned.
      unfold rejected. now rewrite El.
Qed.


(** X9.  A name that is blank once stripped is turned down by
    [add_or_update_item] before anything else is asked: one line is read,
    the message is printed, no connection is opened and the store is not
    touched. *)
Theorem add_or_update_item_blank_name (w : World) (line : string)
    (rest : list string) :
  stdin w = line :: rest ->
  Py.strip line = "" ->
  add_or_update_item w
  = Return tt (set_stdin rest
                 (set_stdout (stdout w ++ ["Item name: ";
                                           "Item name cannot be empty." ++ Py.nl]) w)).
Proof.
  intros Hin Hb. unfold add_or_update_item.
  unfold bind at 1. rewrite (input_run _ _ _ _ Hin). cbv zeta. rewrite Hb.
  cbn [negb Py.truthy]. unfold print, write. world.
  rewrite <- List.app_assoc. reflexivity.
Qed.

Lemma add_or_update_item_blank_name_witness :
  add_or_update_item Demo.naming_nothing
  = Return tt (set_stdin ["Widget"]
                 (set_stdout (stdout Demo.naming_nothing
                                ++ ["Item name: ";
                                    "Item name cannot be empty." ++ Py.nl])
                             Demo.naming_nothing)).
Proof.
  apply (add_or_update_item_blank_name Demo.naming_nothing "   " ["Widget"]).
  - reflexivity.
  - vm_compute. reflexivity.
Defined.

End Prompts.

(** ** Single operations, beyond the claims *)

Section Deleting.





End Deleting.

Section Ordering.



End Ordering.

Section Composing.





End Composing.

Section AdjustingFurther.









End AdjustingFurther.

(** ** The listings *)

Section Listings.

(** X15.  [view_inventory] prints every stored item once, by ascending
    name: a header and a rule, then one line per item with the name cut to
    20 characters and the category to 15, both padded on the right, and the
    two numbers padded on the left to 5 and 10; with nothing stored it prints
    ["Inventory is empty."] instead.  The store is unchanged. *)
Theorem view_inventory_report (w : World) :
  let rows := select_inventory (db_file w) in
  Permutation rows (map columns (tbl_inventory (db_file w))) /\
  Sorted (fun a b => String.leb (fst (fst (fst a))) (fst (fst (fst b))) = true) rows /\
  exists w',
    view_inventory w = Return tt w' /\ db_file w' = db_file w /\
    stdout w'
    = (stdout w ++
       match rows with
       | [] => [("Inventory is empty." ++ Py.nl)%string]
       | _ =>
           ((Py.nl ++ Py.ljust 20 "Item" ++ " " ++ Py.ljust 15 "Category" ++ " "
               ++ Py.ljust 5 "Qty" ++ " " ++ Py.ljust 10 "Reorder @") ++ Py.nl)%string
             :: (String.concat "" (repeat "-" 55) ++ Py.nl)%string
             :: map (fun row : string * string * Z * Z =>
                       ((let '(item, category, qty, reorder_level) := row in
                         Py.ljust 20 (Py.slice_to 20 item) ++ " "
                           ++ Py.ljust 15 (Py.slice_to 15 category) ++ " "
                           ++ Py.rjust 5 (Py.str qty) ++ " "
                           ++ Py.rjust 10 (Py.str reorder_level)) ++ Py.nl)%string)
                    rows
       end)%list.
Proof.
  intros rows. split; [exact (select_inventory_perm (db_file w))|].
  split; [exact (select_inventory_sorted (db_file w))|].
  unfold view_inventory, bind at 1, with_connect_db, fetch. world.
  fold rows. destruct rows as [|row rows'] eqn:Er.
  - unfold print, write. world. eexists. split; [reflexivity|]. split; reflexivity.
  - unfold bind at 1, print at 1, write. world.
    unfold bind at 1, print at 1, write. world.
    erewrite (for_each_print _
               (fun row : string * string * Z * Z =>
                  let '(item, category, qty, reorder_level) := row in
                  Py.ljust 20 (Py.slice_to 20 item) ++ " "
                    ++ Py.ljust 15 (Py.slice_to 15 category) ++ " "
                    ++ Py.rjust 5 (Py.str qty) ++ " "
                    ++ Py.rjust 10 (Py.str reorder_level)))
      by (intros [[[? ?] ?] ?]; reflexivity).
    world. eexists. split; [reflexivity|]. split; [reflexivity|].
    world. rewrite <- !List.app_assoc. reflexivity.
Qed.

Lemma view_orders_run (w : World) :
  exists w',
    view_orders w = Return tt w' /\ db_file w' = db_file w /\
    stdout w'
    = (stdout w ++
       match select_orders (db_file w) with
       | [] => [("No orders recorded." ++ Py.nl)%string]
       | _ =>
           map (fun row : Z * string * Z * option string * string =>
                  ((let '(id, item, qty, note, ordered_at) := row in
                    let note :=
                      match note with
                      | Some n => if Py.truthy n then " (" ++ n ++ ")" else ""
                      | None => ""
                      end in
                    ordered_at ++ ": #" ++ Py.str id ++ " " ++ item ++ " x"
                      ++ Py.str qty ++ note) ++ Py.nl)%string)
               (select_orders (db_file w))
       end)%list.
Proof.
  unfold view_orders, bind at 1, with_connect_db, fetch. world.
  destruct (select_orders (db_file w)) as [|row rows'] eqn:Er.
  - unfold print, write. world. eexists. split; [reflexivity|]. split; reflexivity.
  - erewrite (for_each_print _
               (fun row : Z * string * Z * option string * string =>
                  let '(id, item, qty, note, ordered_at) := row in
                  let note :=
                    match note with
                    | Some n => if Py.truthy n then " (" ++ n ++ ")" else ""
                    | None => ""
                    end in
                  ordered_at ++ ": #" ++ Py.str id ++ " " ++ item ++ " x"
                    ++ Py.str qty ++ note))
      by (intros [[[[? ?] ?] ?] ?]; reflexivity).
    world. eexists. split; [reflexivity|]. split; reflexivity.
Qed.

(** X16.  Where every order is for an item that is still stored and the
    ids of the items are unique, [view_orders] prints every stored order
    exactly once, newest first, with its id, the name of the stored item
    whose id the order refers to, the quantity and, when it is not empty,
    the note in brackets; with no order it prints ["No orders recorded."].
    The store is unchanged. *)
Theorem view_orders_report (w : World) :
  NoDup (map inventory.id (tbl_inventory (db_file w))) ->
  (forall o, In o (tbl_orders (db_file w)) ->
             In (orders.item_id o) (map inventory.id (tbl_inventory (db_file w)))) ->
  let rows := select_orders (db_file w) in
  (forall row,
      In row rows <->
      exists o i,
        In o (tbl_orders (db_file w)) /\ In i (tbl_inventory (db_file w)) /\
        orders.item_id o = inventory.id i /\
        row = (orders.id o, inventory.item i, orders.qty o, orders.note o,
               orders.ordered_at o)) /\
  Permutation (map (fun row => (fst (fst (fst (fst row))), snd (fst (fst row)),
                                snd (fst row), snd row)) rows)
              (map (fun o => (orders.id o, orders.qty o, orders.note o,
                              orders.ordered_at o))
                   (tbl_orders (db_file w))) /\
  Sorted (fun a b => String.leb (snd b) (snd a) = true) rows /\
  exists w',
    view_orders w = Return tt w' /\ db_file w' = db_file w /\
    stdout w'
    = (stdout w ++
       match rows with
       | [] => [("No orders recorded." ++ Py.nl)%string]
       | _ =>
           map (fun row : Z * string * Z * option string * string =>
                  ((let '(id, item, qty, note, ordered_at) := row in
                    let note :=
                      match note with
                      | Some n => if Py.truthy n then " (" ++ n ++ ")" else ""
                      | None => ""
                      end in
                    ordered_at ++ ": #" ++ Py.str id ++ " " ++ item ++ " x"
                      ++ Py.str qty ++ note) ++ Py.nl)%string)
               rows
       end)%list.
Proof.
  intros Hid Href rows.
  split; [intros row; exact (select_orders_joined (db_file w) row)|].
  split; [exact (select_orders_complete (db_file w) Hid Href)|].
  split; [exact (select_orders_sorted (db_file w))|].
  exact (view_orders_run w).
Qed.

Lemma view_orders_report_witness :
  exists w',
    view_orders Demo.ordered_widget = Return tt w' /\
    stdout w'
    = (stdout Demo.ordered_widget
         ++ [("2024-01-01T00:00:00: #1 Widget x3 (rush)" ++ Py.nl)%string])%list.
Proof.
  destruct (view_orders_report Demo.ordered_widget)
    as (_ & _ & _ & w' & R & _ & O).
  - vm_compute. repeat constructor. simpl. tauto.
  - vm_compute. intros o [<-|[]]. simpl. tauto.
  - exists w'. split; [exact R|]. rewrite O. vm_compute. reflexivity.
Defined.

End Listings.

(** ** The menu loop *)

Section Menu.

Lemma menu_loop_shown (turns : list string) (w : World) :
  menu_loop turns w
  = match turns with
    | [] => _ <- input "Choose: " ;; raise EOFError
    | _ :: turns' =>
        choice <- input "Choose: " ;;
        if (Py.strip choice =? "11")%string then ret tt
        else chosen (Py.strip choice) ;; menu_loop turns'
    end (set_stdout (stdout w ++ menu_lines) w).
Proof.
  assert (E : forall k : M unit,
             (print (Py.nl ++ "Inventory Tracker") ;;
              for_each (fun entry : string * (string * option (M unit)) =>
                          print (fst entry ++ ". " ++ fst (snd entry)))
                       menu_options ;; k) w
             = k (set_stdout (stdout w ++ menu_lines) w)).
  { intros k. unfold bind at 1, print at 1, write. unfold bind at 1.
    rewrite (for_each_print _
               (fun entry : string * (string * option (M unit)) =>
                  fst entry ++ ". " ++ fst (snd entry)))
      by reflexivity.
    world. unfold menu_lines. rewrite <- List.app_assoc. reflexivity. }
  destruct turns as [|t turns]; cbn [menu_loop]; apply E.
Qed.

Lemma menu_loop_eof (turns : list string) (w : World) :
  stdin w = [] ->
  menu_loop turns w
  = Raise EOFError (set_stdout (stdout w ++ menu_lines ++ ["Choose: "]) w).
Proof.
  intros Hin. rewrite menu_loop_shown.
  destruct turns as [|t turns]; unfold bind; rewrite input_eof by exact Hin;
    world; rewrite <- List.app_assoc; reflexivity.
Qed.

Lemma menu_loop_step (t : string) (turns : list string) (w : World)
    (line : string) (rest : list string) :
  stdin w = line :: rest ->
  menu_loop (t :: turns) w
  = (if (Py.strip line =? "11")%string then ret tt
     else chosen (Py.strip line) ;; menu_loop turns)
      (set_stdin rest (set_stdout (stdout w ++ menu_lines ++ ["Choose: "]) w)).
Proof.
  intros Hin. rewrite menu_loop_shown. unfold bind at 1.
  erewrite input_run by exact Hin. world. rewrite <- List.app_assoc. reflexivity.
Qed.

Lemma create_tables_run (w : World) :
  create_tables w
  = Return tt (set_conn (db_file w) (set_connections (S (connections w)) w)).
Proof. now destruct w. Qed.

(** What is left to read after a part of the program, given what was there
    before: a part of the program only takes lines from the front. *)
Lemma reads_closed (lines : list string) :
  let I := fun w : World => exists pre, lines = (pre ++ stdin w)%list in
  console_closed I /\ transaction_closed I I.
Proof.
  intros I. split; constructor; unfold I; intros w; world; try tauto.
  intros line rest [pre E] Hin. exists (pre ++ [line])%list.
  rewrite E, Hin, <- List.app_assoc. reflexivity.
Qed.

Lemma chosen_reads (choice : string) (w : World) :
  exists pre, stdin w = (pre ++ stdin (world_of (chosen choice w)))%list.
Proof.
  destruct (reads_closed (stdin w)) as [C T].
  refine (keeps_chosen C C T _ _ _ _ _ choice w _);
    try (intros; assumption).
  now exists [].
Qed.


Lemma menu_loop_bound (turns : list string) :
  forall turns' w,
    (List.length (stdin w) <= List.length turns)%nat ->
    (List.length (stdin w) <= List.length turns')%nat ->
    menu_loop turns w = menu_loop turns' w.
Proof.
  induction turns as [|t turns IH]; intros turns' w H H'.
  - destruct (stdin w) eqn:Hin; [|simpl in H; lia].
    now rewrite !menu_loop_eof by exact Hin.
  - destruct (stdin w) as [|line rest] eqn:Hin.
    + now rewrite !menu_loop_eof by exact Hin.
    + destruct turns' as [|t' turns']; [simpl in H'; lia|].
      rewrite !(menu_loop_step _ _ _ _ _ Hin).
      destruct (Py.strip line =? "11")%string; [reflexivity|].
      unfold bind.
      match goal with
      | |- context [chosen ?c ?w1] =>
          destruct (chosen_reads c w1) as [pre Hpre];
          destruct (chosen c w1) as [[] w2|e w2]; [|reflexivity]
      end.
      world. apply (f_equal (@List.length string)) in Hpre.
      rewrite length_app in Hpre. simpl in H, H'. apply IH; lia.
Qed.

(** X17.  A choice that is 11 once stripped ends [main] at once: the menu
    and the prompt are printed, that one line is read, nothing is said in
    farewell and the database file is as it was. *)
Theorem main_exit (w : World) (line : string) (rest : list string) :
  stdin w = line :: rest ->
  Py.strip line = "11" ->
  exists w',
    main w = Return tt w' /\
    db_file w' = db_file w /\ stdin w' = rest /\
    stdout w' = (stdout w ++ menu_lines ++ ["Choose: "])%list.
Proof.
  intros Hin E. destruct w as [sin sout clk tk db cn cs ef]. simpl in Hin. subst sin.
  unfold main, bind. rewrite create_tables_run. world.
  erewrite menu_loop_step by reflexivity. world.
  rewrite E. cbn [String.eqb Ascii.eqb Bool.eqb]. unfold ret. world.
  eexists. split; [reflexivity|]. world. repeat split.
Qed.

Lemma main_exit_witness :
  exists w',
    main (boot [" 11 "; "2"] Demo.clk Demo.widget5) = Return tt w' /\
    db_file w' = Demo.widget5 /\ stdin w' = ["2"] /\
    stdout w' = ([] ++ menu_lines ++ ["Choose: "])%list.
Proof.
  apply (main_exit (boot [" 11 "; "2"] Demo.clk Demo.widget5) " 11 " ["2"]).
  - reflexivity.
  - vm_compute. reflexivity.
Defined.



(** X19.  Every turn of the loop of [main] reads at least one line, so the
    loop takes no more turns than there are lines to read: run with any
    larger bound on its turns, it ends in the same way. *)
Theorem menu_loop_turns (turns : list string) (w : World) :
  (List.length (stdin w) <= List.length turns)%nat ->
  menu_loop turns w = menu_loop (stdin w) w.
Proof.
  intros H. apply menu_loop_bound; [exact H|apply Nat.le_refl].
Qed.

Lemma menu_loop_turns_witness :
  menu_loop (repeat "" 20) Demo.session = menu_loop (stdin Demo.session) Demo.session.
Proof.
  apply (menu_loop_turns (repeat "" 20) Demo.session). simpl. lia.
Defined.

End Menu.

Section PromptTurns.

Lemma prompt_int_loop_bound (message : string) (minimum : Z) (lines : list string) :
  forall lines' w,
    (List.length (stdin w) <= List.length lines)%nat ->
    (List.length (stdin w) <= List.length lines')%nat ->
    prompt_int_loop message minimum lines w
    = prompt_int_loop message minimum lines' w.
Proof.
  assert (Eof : forall ls w, stdin w = [] ->
                  prompt_int_loop message minimum ls w
                  = Raise EOFError (set_stdout (stdout w ++ [message]) w)).
  { intros ls w Hin. destruct ls; cbn [prompt_int_loop]; unfold bind;
      now rewrite (input_eof _ _ Hin). }
  assert (Step : forall l ls w line rest, stdin w = line :: rest ->
                   prompt_int_loop message minimum (l :: ls) w
                   = match Py.int line with
                     | None =>
                         print "Please enter a valid number." ;;
                         prompt_int_loop message minimum ls
                     | Some value =>
                         if value <? minimum then
                           print ("Value must be at least " ++ Py.str minimum ++ ".") ;;
                           prompt_int_loop message minimum ls
                         else ret value
                     end (set_stdin rest (set_stdout (stdout w ++ [message]) w))).
  { intros l ls w line rest Hin. cbn [prompt_int_loop]. unfold bind at 1.
    now rewrite (input_run _ _ _ _ Hin). }
  induction lines as [|l lines IH]; intros lines' w H H'.
  - destruct (stdin w) eqn:Hin; [|simpl in H; lia].
    now rewrite !Eof by exact Hin.
  - destruct (stdin w) as [|line rest] eqn:Hin.
    + now rewrite !Eof by exact Hin.
    + destruct lines' as [|l' lines']; [simpl in H'; lia|].
      rewrite !(Step _ _ _ _ _ Hin). simpl in H, H'.
      destruct (Py.int line) as [v|].
      * destruct (v <? minimum); [|reflexivity].
        unfold bind, print, write. cbv beta iota. apply IH; world; lia.
      * unfold bind, print, write. cbv beta iota. apply IH; world; lia.
Qed.

(** X20.  Every turn of the loop of [prompt_int] reads one line, so the
    loop takes no more turns than there are lines to read: run with any
    larger bound on its turns, it ends in the same way. *)
Theorem prompt_int_loop_turns (message : string) (minimum : Z)
    (lines : list string) (w : World) :
  (List.length (stdin w) <= List.length lines)%nat ->
  prompt_int_loop message minimum lines w = prompt_int message minimum w.
Proof.
  intros H. unfold prompt_int. apply prompt_int_loop_bound; [exact H|apply Nat.le_refl].
Qed.

Lemma prompt_int_loop_turns_witness :
  prompt_int_loop "Quantity: " 1 (repeat "" 9) Demo.ordering_unknown
  = prompt_int "Quantity: " 1 Demo.ordering_unknown.
Proof.
  apply (prompt_int_loop_turns "Quantity: " 1 (repeat "" 9) Demo.ordering_unknown).
  simpl. lia.
Defined.

End PromptTurns.

Section SearchingPlain.



(** X22.  A search term that is blank once stripped is turned down by
    [search_inventory]: it prints ["Nothing to search."], opens no
    connection and leaves the store as it was. *)
Theorem search_inventory_nothing (w : World) (line : string) (rest : list string) :
  stdin w = line :: rest ->
  Py.strip line = "" ->
  exists w', search_inventory w = Return tt w' /\
             connections w' = connections w /\ db_file w' = db_file w /\
             last_output w' = "Nothing to search." ++ Py.nl.
Proof.
  intros Hin Hb. apply (search_inventory_blank w line rest Hin).
  now rewrite Hb.
Qed.

Lemma search_inventory_nothing_witness :
  exists w', search_inventory Demo.naming_nothing = Return tt w' /\
             connections w' = connections Demo.naming_nothing /\
             db_file w' = db_file Demo.naming_nothing /\
             last_output w' = "Nothing to search." ++ Py.nl.
Proof.
  apply (search_inventory_nothing Demo.naming_nothing "   " ["Widget"]).
  - reflexivity.
  - vm_compute. reflexivity.
Defined.

End SearchingPlain.

Section Recording.




End Recording.

Section Pending.

(** X24.  No operation leaves a transaction open: when the connection's
    view and the database file agree before one of the ten operations, they
    agree after it, whether it returned or raised; what it wrote is
    committed or rolled back. *)
Theorem operations_leave_nothing_pending (op : M unit) (w : World) :
  In op operations ->
  conn w = db_file w ->
  conn (world_of (op w)) = db_file (world_of (op w)).
Proof.
  set (Iout := fun w : World => conn w = db_file w).
  set (Iin := fun _ : World => True).
  assert (Co : console_closed Iout) by (constructor; unfold Iout; intros; world; assumption).
  assert (Ci : console_closed Iin) by (constructor; unfold Iin; auto).
  assert (T : transaction_closed Iout Iin)
    by (constructor; unfold Iout, Iin; intros; world; auto).
  unfold operations. simpl.
  intros [<-|[<-|[<-|[<-|[<-|[<-|[<-|[<-|[<-|[<-|[]]]]]]]]]]].
  - refine (keeps_add_or_update_item Co T _ w); unfold Iin; auto.
  - exact (keeps_view_inventory Co T w).
  - exact (keeps_search_inventory Co T w).
  - refine (keeps_adjust_quantity Co Ci T _ w); unfold Iin; auto.
  - refine (keeps_place_order Co Ci T _ _ w); unfold Iin; auto.
  - exact (keeps_view_orders Co T w).
  - exact (keeps_view_low_stock Co T w).
  - refine (keeps_delete_item Co T _ w); unfold Iin; auto.
  - exact (keeps_export_inventory Co T w).
  - exact (keeps_inventory_summary Co T w).
Qed.

Lemma operations_leave_nothing_pending_witness :
  conn (world_of (adjust_quantity Demo.adding_too_much))
  = db_file (world_of (adjust_quantity Demo.adding_too_much)).
Proof.
  apply (operations_leave_nothing_pending adjust_quantity Demo.adding_too_much).
  - simpl. tauto.
  - reflexivity.
Defined.

End Pending.

(** ** The exceptions that escape *)

Section Raising.

Context {E : exn -> Prop}.

Lemma raises_ret {A : Type} (a : A) : raises E (ret a).
Proof. intros w e w' H. discriminate. Qed.

Lemma raises_raise {A : Type} (e : exn) : E e -> raises E (@raise A e).
Proof. intros He w e' w' H. inversion H; subst. exact He. Qed.

Lemma raises_bind_post {A B : Type} (Q : A -> Prop) (c : M A) (k : A -> M B) :
  returns Q c -> raises E c -> (forall a, Q a -> raises E (k a)) ->
  raises E (bind c k).
Proof.
  intros Hq Hc Hk w e w' H. unfold bind in H.
  destruct (c w) as [a w1|e1 w1] eqn:Ec.
  - exact (Hk a (Hq _ _ _ Ec) _ _ _ H).
  - inversion H; subst. exact (Hc _ _ _ Ec).
Qed.

Lemma raises_bind {A B : Type} (c : M A) (k : A -> M B) :
  raises E c -> (forall a, raises E (k a)) -> raises E (bind c k).
Proof.
  intros Hc Hk. apply (raises_bind_post (fun _ => True)); auto.
  intros w a w' _. exact I.
Qed.

Lemma raises_print (s : string) : raises E (print s).
Proof. intros w e w' H. discriminate. Qed.

Lemma raises_input (message : string) : E EOFError -> raises E (input message).
Proof.
  intros He w e w' H. unfold input, bind, write in H. world.
  destruct (stdin w); inversion H; subst. exact He.
Qed.

Lemma raises_utcnow : raises E utcnow_isoformat.
Proof. intros w e w' H. discriminate. Qed.

Lemma raises_export (f : option string) :
  raises E (fun w => Return tt (set_export_file f w)).
Proof. intros w e w' H. discriminate. Qed.

Lemma raises_fetch {A : Type} (q : database -> A) : raises E (fetch q).
Proof. intros w e w' H. discriminate. Qed.

Lemma raises_fetch_checked {A : Type} (q : database -> exn + A) :
  (forall d e, q d = inl e -> E e) -> raises E (fetch_checked q).
Proof.
  intros Hq w e w' H. unfold fetch_checked in H.
  destruct (q (conn w)) as [e1|a] eqn:Eq; inversion H; subst. exact (Hq _ _ Eq).
Qed.

Lemma raises_execute (stmt : database -> exn + database) :
  (forall d e, stmt d = inl e -> E e) -> raises E (execute stmt).
Proof.
  intros Hs w e w' H. unfold execute in H.
  destruct (stmt (conn w)) as [e1|d] eqn:Es; inversion H; subst. exact (Hs _ _ Es).
Qed.

Lemma raises_commit : raises E commit.
Proof. intros w e w' H. discriminate. Qed.

Lemma raises_with {A : Type} (body : M A) :
  raises E body -> raises E (with_connect_db body).
Proof.
  intros Hb w e w' H. unfold with_connect_db in H.
  match type of H with
  | context [body ?w1] => destruct (body w1) as [a w2|e2 w2] eqn:Eb
  end; inversion H; subst. exact (Hb _ _ _ Eb).
Qed.

Lemma raises_for_each {A : Type} (f : A -> M unit) (l : list A) :
  (forall x, raises E (f x)) -> raises E (for_each f l).
Proof.
  intros Hf. induction l as [|x l IH]; cbn [for_each].
  - apply raises_ret.
  - apply raises_bind; [apply Hf|intros _; exact IH].
Qed.

Lemma raises_prompt_int (message : string) (minimum : Z) :
  E EOFError -> raises E (prompt_int message minimum).
Proof.
  intros He w e w' H. unfold prompt_int in H.
  pose proof (prompt_int_loop_outcome message minimum (stdin w) w eq_refl) as O.
  rewrite H in O. destruct O as [-> _]. exact He.
Qed.

Lemma returns_prompt_int (message : string) (minimum : Z) :
  returns (fun v => minimum <= v) (prompt_int message minimum).
Proof.
  intros w v w' H. unfold prompt_int in H.
  pose proof (prompt_int_loop_outcome message minimum (stdin w) w eq_refl) as O.
  rewrite H in O. destruct O as (? & ? & ? & ? & ? & ?). assumption.
Qed.

End Raising.

Ltac raise_step :=
  match goal with
  | |- raises _ (ret _) => apply raises_ret
  | |- raises _ (print _) => apply raises_print
  | |- raises _ (input _) => apply raises_input
  | |- raises _ utcnow_isoformat => apply raises_utcnow
  | |- raises _ (fun w => Return tt (set_export_file _ w)) => apply raises_export
  | |- raises _ (fetch _) => apply raises_fetch
  | |- raises _ commit => apply raises_commit
  | |- raises _ (with_connect_db _) => apply raises_with
  | |- raises _ (for_each _ _) => apply raises_for_each; intros ?
  | |- raises _ (bind (prompt_int _ ?m) _) =>
      apply (raises_bind_post (fun v => m <= v));
      [apply returns_prompt_int | apply raises_prompt_int | intros ? ?]
  | |- raises _ (bind _ _) => apply raises_bind; [|intros ?]
  | |- raises _ (if ?b then _ else _) => destruct b eqn:?
  | |- raises _ (match ?x with _ => _ end) => destruct x eqn:?
  | |- raises _ (let _ := _ in _) => cbv zeta
  end.

Ltac raise_steps := repeat raise_step.

Section Escaping.

Lemma set_qty_some (f : Z -> Z) (id : Z) (t : list inventory.row) :
  (forall r, In r t -> inventory.id r = id -> 0 <= f (inventory.qty r)) ->
  exists u, set_qty f id t = Some u.
Proof.
  induction t as [|r t IH]; intros H; [now exists []|].
  destruct IH as [u Hu]; [intros r0 Hr0; apply H; now right|].
  cbn [set_qty]. rewrite Hu.
  destruct (Z.eqb_spec (inventory.id r) id) as [Ei|_]; [|eauto].
  destruct (Z.ltb_spec (f (inventory.qty r)) 0) as [Hlt|_]; [|eauto].
  specialize (H r (or_introl eq_refl) Ei). lia.
Qed.

Lemma upsert_item_raises (name category : string) (qty reorder_level : Z)
    (d : database) (e : exn) :
  0 <= qty -> 0 <= reorder_level ->
  upsert_item name category qty reorder_level d = inl e -> e = OverflowError.
Proof.
  intros Hq Hr. unfold upsert_item.
  destruct (negb _); [intros H; now inversion H|].
  rewrite (proj2 (Z.leb_le 0 qty) Hq), (proj2 (Z.leb_le 0 reorder_level) Hr).
  cbn [andb negb]. destruct (existsb _ _); discriminate.
Qed.

Lemma update_qty_raises (new_qty id : Z) (d : database) (e : exn) :
  0 <= new_qty -> update_qty new_qty id d = inl e -> e = OverflowError.
Proof.
  intros Hn. unfold update_qty.
  destruct (negb _); [intros H; now inversion H|].
  destruct (set_qty_some (fun _ => new_qty) id (tbl_inventory d)) as [u ->];
    [intros; exact Hn|discriminate].
Qed.

Lemma insert_order_raises (item_id qty : Z) (note : option string)
    (ordered_at : string) (d : database) (e : exn) :
  1 <= qty ->
  insert_order item_id qty note ordered_at d = inl e -> e = OverflowError.
Proof.
  intros Hq. unfold insert_order.
  destruct (negb _); [intros H; now inversion H|].
  destruct (Z.ltb_spec 0 qty); [discriminate|lia].
Qed.

Lemma unique_id_row (t : list inventory.row) (a b : inventory.row) :
  NoDup (map inventory.id t) -> In a t -> In b t ->
  inventory.id a = inventory.id b -> a = b.
Proof.
  induction t as [|r t IH]; cbn; intros U Ha Hb Eab; [destruct Ha|].
  inversion U as [|? ? Hr Ut]; subst.
  destruct Ha as [->|Ha], Hb as [->|Hb]; auto.
  - exfalso. apply Hr. rewrite Eab. now apply in_map.
  - exfalso. apply Hr. rewrite <- Eab. now apply in_map.
Qed.

Lemma update_qty_minus_raises (name : string) (q id stock : Z) (d : database)
    (e : exn) :
  NoDup (map inventory.id (tbl_inventory d)) ->
  select_id_qty name d = Some (id, stock) -> q <= stock ->
  update_qty_minus q id d = inl e -> e = OverflowError.
Proof.
  intros U Hsel Hq. unfold update_qty_minus.
  destruct (negb _); [intros H; now inversion H|].
  destruct (select_id_qty_In _ _ _ _ Hsel) as (r0 & Hin0 & _ & Hid0 & Hq0).
  destruct (set_qty_some (fun old => old - q) id (tbl_inventory d)) as [u ->];
    [|discriminate].
  intros r Hr Hid.
  assert (r = r0) by (apply (unique_id_row _ _ _ U Hr Hin0); congruence).
  subst r. lia.
Qed.

Lemma select_totals_raises (d : database) (e : exn) :
  select_totals d = inl e -> e = OperationalError.
Proof.
  unfold select_totals, SUM.
  destruct (map inventory.qty (tbl_inventory d)) as [|x l]; [discriminate|].
  assert (H : forall l acc e0, sum_from acc l = inl e0 -> e0 = OperationalError).
  { clear. induction l as [|y l IH]; cbn; intros acc e0; [discriminate|].
    destruct (fits_int64 (acc + y)); [apply IH|intros H; now inversion H]. }
  destruct (sum_from x l) as [e0|s] eqn:Es; [|discriminate].
  intros H0; inversion H0; subst. exact (H _ _ _ Es).
Qed.

Lemma select_per_category_raises (d : database) (e : exn) :
  select_per_category d = inl e -> e = OperationalError.
Proof.
  assert (Hs : forall l e0, SUM l = inl e0 -> e0 = OperationalError).
  { intros l e0. unfold SUM. destruct l as [|x l]; [discriminate|].
    assert (H : forall l acc e1, sum_from acc l = inl e1 -> e1 = OperationalError).
    { clear. induction l as [|y l IH]; cbn; intros acc e1; [discriminate|].
      destruct (fits_int64 (acc + y)); [apply IH|intros H; now inversion H]. }
    destruct (sum_from x l) as [e1|s] eqn:Es; [|discriminate].
    intros H0; inversion H0; subst. exact (H _ _ _ Es). }
  unfold select_per_category.
  destruct (aggregate (groups (tbl_inventory d))) as [e0|out] eqn:Ea; [|discriminate].
  intros H; inversion H; subst. clear H. revert e Ea.
  induction (groups (tbl_inventory d)) as [|[c rows] gs IH]; cbn; intros e Ea;
    [discriminate|].
  destruct (SUM (map inventory.qty rows)) as [e1|s] eqn:E1.
  - inversion Ea; subst. exact (Hs _ _ E1).
  - destruct (aggregate gs) as [e2|out]; [|discriminate].
    inversion Ea; subst. now apply IH.
Qed.

Lemma view_inventory_raises : raises (fun _ => False) view_inventory.
Proof. unfold view_inventory. raise_steps. Qed.

Lemma view_orders_raises : raises (fun _ => False) view_orders.
Proof. unfold view_orders. raise_steps. Qed.

Lemma view_low_stock_raises : raises (fun _ => False) view_low_stock.
Proof. unfold view_low_stock. raise_steps. Qed.

Lemma export_inventory_raises : raises (fun _ => False) export_inventory.
Proof. unfold export_inventory. raise_steps. Qed.

Lemma search_inventory_raises :
  raises (fun e => e = EOFError \/ e = OperationalError) search_inventory.
Proof.
  unfold search_inventory. raise_steps; try (now left).
  apply raises_fetch_checked. intros d e H. right.
  exact (select_matching_raises _ _ _ _ H).
Qed.

Lemma inventory_summary_raises :
  raises (fun e => e = OperationalError) inventory_summary.
Proof.
  unfold inventory_summary. raise_steps.
  - apply raises_fetch_checked. exact select_totals_raises.
  - apply raises_fetch_checked. exact select_per_category_raises.
Qed.

Lemma delete_item_raises : raises (fun e => e = EOFError) delete_item.
Proof.
  unfold delete_item. raise_steps; try reflexivity.
  intros w e w' H. destruct (Sqlite.delete_item _ _). discriminate.
Qed.

Lemma add_or_update_item_raises :
  raises (fun e => e = EOFError \/ e = OverflowError) add_or_update_item.
Proof.
  unfold add_or_update_item. raise_steps; try (now left).
  apply raises_execute. intros d e Hup. right.
  eapply upsert_item_raises; [| |exact Hup]; assumption.
Qed.

Lemma adjust_quantity_raises :
  raises (fun e => e = EOFError \/ e = OverflowError) adjust_quantity.
Proof.
  unfold adjust_quantity. raise_steps; try (now left).
  all: apply raises_execute; intros d e Hup; right;
    eapply update_qty_raises; [|exact Hup];
    match goal with Hlt : (_ <? 0) = false |- _ => apply Z.ltb_ge in Hlt; exact Hlt end.
Qed.

Lemma input_raises (message : string) (w w' : World) (e : exn) :
  input message w = Raise e w' -> e = EOFError.
Proof. exact (raises_input (E := fun e => e = EOFError) message eq_refl w e w'). Qed.

Lemma place_order_raises (w w' : World) (e : exn) :
  NoDup (map inventory.id (tbl_inventory (db_file w))) ->
  place_order w = Raise e w' -> e = EOFError \/ e = OverflowError.
Proof.
  intros U R. unfold place_order in R.
  unfold bind at 1 in R.
  pose proof (input_console "Item to order: " w) as C1.
  destruct (input "Item to order: " w) as [l1 w1|e1 w1] eqn:E1; world;
    [|inversion R; subst; left; exact (input_raises _ _ _ _ E1)].
  apply console_step_store in C1. destruct C1 as (D1 & _).
  cbv zeta in R. unfold bind at 1 in R.
  pose proof (prompt_int_console "Quantity: " 1 w1) as C2.
  destruct (prompt_int "Quantity: " 1 w1) as [q w2|e2 w2] eqn:E2; world;
    [|inversion R; subst; left;
      exact (raises_prompt_int (E := fun e => e = EOFError) _ _ eq_refl _ _ _ E2)].
  apply console_step_store in C2. destruct C2 as (D2 & _).
  pose proof (returns_prompt_int _ _ _ _ _ E2) as Hq. cbv beta in Hq.
  unfold bind at 1 in R.
  pose proof (input_console "Note (optional): " w2) as C3.
  destruct (input "Note (optional): " w2) as [l3 w3|e3 w3] eqn:E3; world;
    [|inversion R; subst; left; exact (input_raises _ _ _ _ E3)].
  apply console_step_store in C3. destruct C3 as (D3 & _).
  assert (D : db_file w3 = db_file w) by congruence. clear D1 D2 D3.
  cbv zeta in R. unfold bind at 1, with_connect_db in R. world.
  unfold bind at 1, fetch in R. world.
  destruct (select_id_qty (Py.strip l1) (db_file w3)) as [[id stock]|] eqn:Esel;
    [|discriminate].
  destruct (Z.ltb_spec stock q) as [Hlt|Hge]; [discriminate|].
  unfold bind at 1, execute in R. world.
  destruct (update_qty_minus q id (db_file w3)) as [e0|d1] eqn:Eu.
  { inversion R; subst. right.
    eapply update_qty_minus_raises; [|exact Esel|exact Hge|exact Eu].
    now rewrite D. }
  unfold bind at 1, utcnow_isoformat in R. world.
  unfold bind at 1, execute in R. world.
  destruct (insert_order id q _ _ d1) as [e0|d2] eqn:Ei; [|discriminate].
  inversion R; subst. right. exact (insert_order_raises _ _ _ _ _ _ Hq Ei).
Qed.

Lemma operation_raises (op : M unit) (w w' : World) (e : exn) :
  In op operations ->
  NoDup (map inventory.id (tbl_inventory (db_file w))) ->
  op w = Raise e w' ->
  (e = EOFError /\
   In op [add_or_update_item; search_inventory; adjust_quantity; place_order;
          delete_item]) \/
  (e = OverflowError /\ In op [add_or_update_item; adjust_quantity; place_order]) \/
  (e = OperationalError /\ In op [search_inventory; inventory_summary]).
Proof.
  unfold operations. simpl.
  intros [<-|[<-|[<-|[<-|[<-|[<-|[<-|[<-|[<-|[<-|[]]]]]]]]]]] U R.
  - destruct (add_or_update_item_raises _ _ _ R) as [->| ->]; tauto.
  - destruct (view_inventory_raises _ _ _ R).
  - destruct (search_inventory_raises _ _ _ R) as [->| ->]; tauto.
  - destruct (adjust_quantity_raises _ _ _ R) as [->| ->]; tauto.
  - destruct (place_order_raises _ _ _ U R) as [->| ->]; tauto.
  - destruct (view_orders_raises _ _ _ R).
  - destruct (view_low_stock_raises _ _ _ R).
  - rewrite (delete_item_raises _ _ _ R). tauto.
  - destruct (export_inventory_raises _ _ _ R).
  - rewrite (inventory_summary_raises _ _ _ R). tauto.
Qed.

(** X25.  Where the ids of the stored items are unique, the only
    exceptions that escape the ten operations are [EOFError], from the five
    that read a line first, [OverflowError], from the three that write a
    number that was typed, and [OperationalError], of an overflowing sum in
    [inventory_summary] and of too long a pattern in [search_inventory].  No
    operation ends with [IntegrityError]: what the schema checks, the
    operations have checked before; and the three listings and the export
    never raise. *)
Theorem operations_raise (op : M unit) (w w' : World) (e : exn) :
  In op operations ->
  NoDup (map inventory.id (tbl_inventory (db_file w))) ->
  op w = Raise e w' ->
  (e = EOFError /\
   In op [add_or_update_item; search_inventory; adjust_quantity; place_order;
          delete_item]) \/
  (e = OverflowError /\ In op [add_or_update_item; adjust_quantity; place_order]) \/
  (e = OperationalError /\ In op [search_inventory; inventory_summary]).
Proof. exact (operation_raises op w w' e). Qed.

Lemma operations_raise_witness :
  (OverflowError = EOFError /\
   In adjust_quantity
      [add_or_update_item; search_inventory; adjust_quantity; place_order;
       delete_item]) \/
  (OverflowError = OverflowError /\
   In adjust_quantity [add_or_update_item; adjust_quantity; place_order]) \/
  (OverflowError = OperationalError /\
   In adjust_quantity [search_inventory; inventory_summary]).
Proof.
  apply (operations_raise adjust_quantity Demo.adding_too_much
           (world_of (adjust_quantity Demo.adding_too_much)) OverflowError).
  - simpl. tauto.
  - vm_compute. repeat constructor. simpl. tauto.
  - vm_compute. reflexivity.
Defined.

Lemma chosen_raises (choice : string) (w w' : World) (e : exn) :
  NoDup (map inventory.id (tbl_inventory (db_file w))) ->
  chosen choice w = Raise e w' -> e <> IntegrityError.
Proof.
  intros U R.
  assert (H : forall op, In op operations -> op w = Raise e w' -> e <> IntegrityError).
  { intros op Hop Ro.
    destruct (operation_raises op w w' e Hop U Ro) as [[-> _]|[[-> _]|[-> _]]];
      discriminate. }
  revert R. unfold chosen, menu_options. cbn [get].
  repeat match goal with
         | |- match (if ?b then _ else _) with _ => _ end _ = _ -> _ => destruct b
         end;
    try (apply H; unfold operations; simpl; tauto); discriminate.
Qed.

Lemma menu_loop_raises (turns : list string) :
  forall w w' e,
    constraints (db_file w) ->
    menu_loop turns w = Raise e w' -> e <> IntegrityError.
Proof.
  assert (K : forall choice, keeps (on_file constraints) (chosen choice)).
  { intros choice.
    apply (keeps_chosen (on_file_console constraints)
             (in_transaction_console constraints) (store_transaction constraints)).
    - apply store_upsert. intros ? ? ? ? ? ? Hn Hc K E.
      exact (upsert_item_constraints _ _ _ _ _ _ Hn Hc K E).
    - apply store_update_qty. intros; eapply update_qty_constraints; eassumption.
    - apply store_update_qty_minus.
      intros; eapply update_qty_minus_constraints; eassumption.
    - apply store_insert_order.
      intros; eapply insert_order_constraints; eassumption.
    - apply store_delete. intros; now apply delete_item_constraints. }
  induction turns as [|t turns IH]; intros w w' e C R.
  - rewrite menu_loop_shown in R. unfold bind in R.
    destruct (input "Choose: " _) as [a w1|e1 w1] eqn:Ei; inversion R; subst.
    + discriminate.
    + rewrite (input_raises _ _ _ _ Ei). discriminate.
  - destruct (stdin w) as [|line rest] eqn:Hin.
    + rewrite menu_loop_eof in R by exact Hin. inversion R. discriminate.
    + rewrite (menu_loop_step _ _ _ _ _ Hin) in R.
      destruct (Py.strip line =? "11")%string; [discriminate|].
      unfold bind in R.
      match type of R with
      | context [chosen ?c ?w1] =>
          pose proof (K c w1 C) as C1;
          destruct (chosen c w1) as [[] w2|e2 w2] eqn:Ec
      end.
      * exact (IH _ _ _ C1 R).
      * inversion R; subst. eapply chosen_raises; [|exact Ec].
        exact (item_ids _ C).
Qed.

(** X26.  A session of [main] over a store within the constraints never
    ends with [IntegrityError]: whatever is typed, no statement of the
    session breaks a constraint of the schema. *)
Theorem main_never_integrity_error (w w' : World) (e : exn) :
  constraints (db_file w) ->
  main w = Raise e w' ->
  e <> IntegrityError.
Proof.
  intros C R. unfold main, bind in R. rewrite create_tables_run in R.
  eapply menu_loop_raises; [|exact R]. exact C.
Qed.

Lemma main_never_integrity_error_witness : EOFError <> IntegrityError.
Proof.
  apply (main_never_integrity_error (boot ["2"] Demo.clk Demo.widget5)
           (world_of (main (boot ["2"] Demo.clk Demo.widget5))) EOFError).
  - exact widget5_constraints.
  - vm_compute. reflexivity.
Defined.

End Escaping.

Section Saving.




End Saving.
